(** * Failover state model of the cluster controller

    A shallow embedding of [state/state_model.go]: the four node states,
    the two auto-failover constraints, the two failover handlers and the
    transition table registered by [init], together with the engine of
    package [fsm] that drives them. *)

From Stdlib Require Import String List Bool ZArith Lia.
Import ListNotations.
Open Scope string_scope.
Open Scope list_scope.
Open Scope nat_scope.

(** Go's [(value, error)] pairs. *)
Inductive result (A : Type) : Type :=
| Ok (a : A)
| Err (msg : string).
Arguments Ok {A} a.
Arguments Err {A} msg.

(* ================================================================== *)
(** ** Package [topo]: node descriptors and replica sets *)

Module topo.

Record Range := { Left : Z; Right : Z }.

(** The fields of [topo.Node] that the state model reads:
    [node.Id], [node.Region], [node.Fail], [node.Ranges], and the
    address behind [NodeState.Addr()]. *)
Record Node := {
  Id : string;
  Region : string;
  Fail : bool;
  Ranges : list Range;
  Address : string
}.

Record ReplicaSet := { Nodes : list Node }.

(** Modelled from the spec: [ReplicaSet.RegionNodes] is not part of
    [state_model.go]; it lists the nodes of the replica set that lie in
    the given region. *)
Definition RegionNodes (rs : ReplicaSet) (region : string) : list Node :=
  filter (fun n => String.eqb (Region n) region) (Nodes rs).

End topo.

(* ================================================================== *)
(** ** Package [fsm]: the engine *)

Module fsm.

Section Engine.
Variables Ctx Inp Ev : Type.

Record State := {
  Name : string;
  OnEnter : Ctx -> list Ev;
  OnLeave : Ctx -> list Ev
}.

(** A [nil] constraint or handler is [None]. A constraint may log, so
    it yields its verdict together with what it wrote. *)
Record Transition := {
  From : string;
  To : string;
  Input : Inp;
  Priority : Z;
  Constraint : option (Ctx -> bool * list Ev);
  Apply : option (Ctx -> list Ev)
}.

(** States and transitions in registration order. *)
Record StateModel := {
  States : list State;
  TransTable : list Transition
}.

Definition NewStateModel : StateModel :=
  {| States := []; TransTable := [] |}.

Definition hasState (m : StateModel) (name : string) : bool :=
  existsb (fun s => String.eqb (Name s) name) (States m).

(** Modelled from the spec: [StateModel.AddState] is not part of
    [state_model.go]. A duplicate state name is a malformed
    registration, fatal at startup ([None]). *)
Definition AddState (m : StateModel) (s : State) : option StateModel :=
  if hasState m (Name s) then None
  else Some {| States := States m ++ [s]; TransTable := TransTable m |}.

(** Modelled from the spec: [StateModel.AddTransition] is not part of
    [state_model.go]. A transition that names an unregistered state is
    a malformed registration, fatal at startup ([None]). *)
Definition AddTransition (m : StateModel) (t : Transition)
  : option StateModel :=
  if hasState m (From t) && hasState m (To t)
  then Some {| States := States m; TransTable := TransTable m ++ [t] |}
  else None.

(** [Eq pattern input]: does the transition's pattern accept the input. *)
Variable Eq : Inp -> Inp -> bool.

(** Steps 1 and 2 of the engine: the transitions leaving [cur] whose
    pattern accepts [input], in registration order. *)
Definition matching (m : StateModel) (cur : string) (input : Inp)
  : list Transition :=
  filter (fun t => String.eqb (From t) cur && Eq (Input t) input)
         (TransTable m).

(** Step 3: a missing constraint passes. *)
Definition check (t : Transition) (ctx : Ctx) : bool * list Ev :=
  match Constraint t with
  | None => (true, [])
  | Some g => g ctx
  end.

Fixpoint passing (ts : list Transition) (ctx : Ctx)
  : list Transition * list Ev :=
  match ts with
  | [] => ([], [])
  | t :: rest =>
      let '(ok, out) := check t ctx in
      let '(keep, outs) := passing rest ctx in
      (if ok then t :: keep else keep, out ++ outs)
  end.

(** Step 5: the highest priority wins, and among equals the one
    registered first. *)
Fixpoint highest (ts : list Transition) : option Transition :=
  match ts with
  | [] => None
  | t :: rest =>
      match highest rest with
      | Some u => if (Priority u >? Priority t)%Z then Some u else Some t
      | None => Some t
      end
  end.

(** Modelled from the spec: the resolution of the next transition
    (steps 1 to 5 of the engine) is not part of [state_model.go]. *)
Definition Next (m : StateModel) (cur : string) (ctx : Ctx) (input : Inp)
  : option Transition * list Ev :=
  let '(ok, out) := passing (matching m cur input) ctx in
  (highest ok, out).

Definition hook (m : StateModel) (name : string)
           (h : State -> Ctx -> list Ev) (ctx : Ctx) : list Ev :=
  match find (fun s => String.eqb (Name s) name) (States m) with
  | Some s => h s ctx
  | None => []
  end.

Definition apply (t : Transition) (ctx : Ctx) : list Ev :=
  match Apply t with
  | Some h => h ctx
  | None => []
  end.

(** What one call of [Advance] leaves behind: the state the machine is
    in afterwards, whether a transition fired, and everything that was
    written or called on the way, in order. *)
Record Outcome := {
  state : string;
  fired : bool;
  trace : list Ev
}.

(** Modelled from the spec: [StateMachine.Advance] is not part of
    [state_model.go]. Step 4: nothing remains, nothing happens. Step 6:
    the handler runs, then [OnLeave] of the old state, then the state
    changes, then [OnEnter] of the new one. *)
Definition Advance (m : StateModel) (cur : string) (ctx : Ctx)
           (input : Inp) : Outcome :=
  match Next m cur ctx input with
  | (None, out) => {| state := cur; fired := false; trace := out |}
  | (Some t, out) =>
      {| state := To t;
         fired := true;
         trace := out ++ apply t ctx
                      ++ hook m cur OnLeave ctx
                      ++ hook m (To t) OnEnter ctx |}
  end.

End Engine.

Arguments Name {Ctx Ev} _.
Arguments OnEnter {Ctx Ev} _ _.
Arguments OnLeave {Ctx Ev} _ _.
Arguments From {Ctx Inp Ev} _.
Arguments To {Ctx Inp Ev} _.
Arguments Input {Ctx Inp Ev} _.
Arguments Priority {Ctx Inp Ev} _.
Arguments Constraint {Ctx Inp Ev} _.
Arguments Apply {Ctx Inp Ev} _.
Arguments States {Ctx Inp Ev} _.
Arguments TransTable {Ctx Inp Ev} _.
Arguments NewStateModel {Ctx Inp Ev}.
Arguments hasState {Ctx Inp Ev} m name.
Arguments AddState {Ctx Inp Ev} m s.
Arguments AddTransition {Ctx Inp Ev} m t.
Arguments matching {Ctx Inp Ev} Eq m cur input.
Arguments check {Ctx Inp Ev} t ctx.
Arguments passing {Ctx Inp Ev} ts ctx.
Arguments highest {Ctx Inp Ev} ts.
Arguments Next {Ctx Inp Ev} Eq m cur ctx input.
Arguments hook {Ctx Inp Ev} m name h ctx.
Arguments apply {Ctx Inp Ev} t ctx.
Arguments state {Ev} _.
Arguments fired {Ev} _.
Arguments trace {Ev} _.
Arguments Advance {Ctx Inp Ev} Eq m cur ctx input.

End fsm.

(* ================================================================== *)
(** ** Package [command]: the [failover] command of the client *)

Module command.

(** What the command shows or sends, in order. *)
Inductive Output :=
| Println (line : string)
  (** [fmt.Println] *)
| Post (url nodeId : string) (timeout : Z) (user role token : string)
  (** [utils.HttpPostExtra(url, req, timeout, extraHeader)] *)
| Show (resp : string).
  (** [ShowResponse(resp)] *)

(** [time.Second], in nanoseconds. *)
Definition Second : Z := 1000000000.

(** What [failoverAction] reads and calls outside its file: the message
    of [ErrInvalidParameter], the leader's address, the credentials of
    [context.Config], the path [api.NodeSetAsMasterPath], the resolution
    of a node id by [context.GetId] and the answer of the leader to
    [utils.HttpPostExtra]. *)
Record Env := {
  ErrInvalidParameter : string;
  GetLeaderAddr : string;
  User : string;
  Role : string;
  Token : string;
  NodeSetAsMasterPath : string;
  GetId : string -> result string;
  HttpPostExtra : string -> string -> Z -> string -> string -> string
                  -> result string
}.

Definition failoverAction (e : Env) (args : list string) : list Output :=
  if negb (length args =? 1) then [Println (ErrInvalidParameter e)]
  else
    let addr := GetLeaderAddr e in
    let url := ("http://" ++ addr ++ NodeSetAsMasterPath e)%string in
    match GetId e (nth 0 args "") with
    | Err err => [Println err]
    | Ok nodeid =>
        Post url nodeid (5 * Second) (User e) (Role e) (Token e) ::
        match HttpPostExtra e url nodeid (5 * Second)
                            (User e) (Role e) (Token e) with
        | Err err => [Println err]
        | Ok resp => [Show resp]
        end
    end.

Definition isPost (o : Output) : bool :=
  match o with
  | Post _ _ _ _ _ _ => true
  | _ => false
  end.

(** A leader at 10.0.0.1 that knows the node "n1" under the name
    "redis-1" and accepts the request. *)
Definition sampleEnv : Env :=
  {| ErrInvalidParameter := "invalid parameter";
     GetLeaderAddr := "10.0.0.1:6000";
     User := "op"; Role := "admin"; Token := "secret";
     NodeSetAsMasterPath := "/node/setAsMaster";
     GetId := fun name =>
       if String.eqb name "redis-1" then Ok "n1" else Err "unknown node";
     HttpPostExtra := fun _ _ _ _ _ _ => Ok "done" |}.

End command.

(* ================================================================== *)
(** ** Package [state]: [state_model.go] *)

Module state.

Definition StateRunning := "RUNNING".
Definition StateWaitFailoverBegin := "WAIT_FAILOVER_BEGIN".
Definition StateWaitFailoverEnd := "WAIT_FAILOVER_END".
Definition StateOffline := "OFFLINE".

(** *** Inputs *)

(** Modelled from the spec: the declaration of [Input] and of its
    constants is not part of [state_model.go], which uses [T], [F],
    [FAIL], [FINE], [M], [S], [ANY] and the two signals. One type serves
    observations and patterns alike; [ANY] is the wildcard. *)
Inductive InputField :=
| ANY | T | F | FINE | FAIL | M | S
| CMD_NONE | CMD_FAILOVER_BEGIN_SIGNAL | CMD_FAILOVER_END_SIGNAL.

Definition InputField_eqb (a b : InputField) : bool :=
  match a, b with
  | ANY, ANY | T, T | F, F | FINE, FINE | FAIL, FAIL | M, M | S, S
  | CMD_NONE, CMD_NONE
  | CMD_FAILOVER_BEGIN_SIGNAL, CMD_FAILOVER_BEGIN_SIGNAL
  | CMD_FAILOVER_END_SIGNAL, CMD_FAILOVER_END_SIGNAL => true
  | _, _ => false
  end.

Record Input := mkInput {
  ReadEnabled : InputField;
  WriteEnabled : InputField;
  Health : InputField;
  Role : InputField;
  Command : InputField
}.

Definition fieldEq (p i : InputField) : bool :=
  match p with
  | ANY => true
  | _ => InputField_eqb p i
  end.

(** Modelled from the spec: [Input.Eq] is not part of [state_model.go].
    A pattern accepts an input when every field of the pattern is [ANY]
    or equals the input's field. *)
Definition Eq (p i : Input) : bool :=
  fieldEq (ReadEnabled p) (ReadEnabled i)
  && fieldEq (WriteEnabled p) (WriteEnabled i)
  && fieldEq (Health p) (Health i)
  && fieldEq (Role p) (Role i)
  && fieldEq (Command p) (Command i).

(** *** What a firing can do to the outside *)

Inductive Event :=
| Log (line : string)
  (** [log.Println], [log.Printf] *)
| CallDisableRead (addr id : string)
  (** [redis.DisableRead(addr, id)] *)
| GoAdvanceFSM (id : string) (cmd : InputField)
  (** [go ns.AdvanceFSM(cs, cmd)], for the node [id] *)
| GoRunFailoverTask (failing candidate : string).
  (** [go cs.RunFailoverTask(failing, candidate)] *)

(** The process-wide flag behind [meta.AutoFailover()] and the store
    nodes behind [redis.DisableRead], which answers with a response or
    with an error. *)
Record World := {
  AutoFailover : bool;
  DisableRead : string -> string -> result string
}.

(** *** Node and cluster state *)

Record NodeState := {
  node : topo.Node;
  current : string
}.

Definition Id (ns : NodeState) : string := topo.Id (node ns).
Definition Addr (ns : NodeState) : string := topo.Address (node ns).
Definition CurrentState (ns : NodeState) : string := current ns.

(** The queries of [ClusterState] that the constraints and handlers
    call. Their bodies are not part of [state_model.go], so a cluster
    state is whatever answers them. [FindReplicaSetByNode] may answer
    [nil]; the answer of [FindNodeState] is used unchecked by the
    callers, one node state existing per cluster node. *)
Record ClusterState := {
  FindReplicaSetByNode : string -> option topo.ReplicaSet;
  FindNodeState : string -> NodeState;
  AllNodeStates : list NodeState;
  MaxReploffSlibing : string -> bool -> result string
}.

Record StateContext := {
  ctxInput : Input;
  ctxClusterState : ClusterState;
  ctxNodeState : NodeState
}.

(** *** Constraints *)

(** The loop shared by both constraints: every node of the region other
    than the node itself must be neither failed nor out of [RUNNING]. *)
Fixpoint siblingsRunning (cs : ClusterState) (self : string)
         (localRegionNodes : list topo.Node) : bool :=
  match localRegionNodes with
  | [] => true
  | n :: rest =>
      if String.eqb (topo.Id n) self then siblingsRunning cs self rest
      else
        let nodeState := FindNodeState cs (topo.Id n) in
        if topo.Fail n
           || negb (String.eqb (CurrentState nodeState) StateRunning)
        then false
        else siblingsRunning cs self rest
  end.

Definition SlaveAutoFailoverConstraint (w : World) (ctx : StateContext)
  : bool * list Event :=
  let cs := ctxClusterState ctx in
  let ns := ctxNodeState ctx in
  match FindReplicaSetByNode cs (Id ns) with
  | None => (false, [])
  | Some rs =>
      let localRegionNodes := topo.RegionNodes rs (topo.Region (node ns)) in
      if length localRegionNodes <? 2 then (false, [])
      else if siblingsRunning cs (Id ns) localRegionNodes
           then (true, [Log "can failover slave"])
           else (false, [])
  end.

Definition MasterAutoFailoverConstraint (w : World) (ctx : StateContext)
  : bool * list Event :=
  let cs := ctxClusterState ctx in
  let ns := ctxNodeState ctx in
  if negb (AutoFailover w)
     && negb (InputField_eqb (Command (ctxInput ctx))
                             CMD_FAILOVER_BEGIN_SIGNAL)
  then (false, [])
  else
    match FindReplicaSetByNode cs (Id ns) with
    | None => (false, [])
    | Some rs =>
        let localRegionNodes :=
          topo.RegionNodes rs (topo.Region (node ns)) in
        if length localRegionNodes <? 2 then (false, [])
        else if siblingsRunning cs (Id ns) localRegionNodes
             then (true, [Log "Can do failover for master"])
             else (false, [])
    end.

(** The constraint of transition (d2): a failed master that owns no
    ranges has been dealt with already. *)
Definition OfflineMasterConstraint (w : World) (ctx : StateContext)
  : bool * list Event :=
  let ns := ctxNodeState ctx in
  if topo.Fail (node ns) && (length (topo.Ranges (node ns)) =? 0)
  then (false, [])
  else (true, []).

(** *** Handlers *)

Fixpoint disableReadLoop (w : World) (id : string)
         (nodeStates : list NodeState) : list Event :=
  match nodeStates with
  | [] => []
  | n :: rest =>
      CallDisableRead (Addr n) id ::
      match DisableRead w (Addr n) id with
      | Ok resp =>
          [Log ("Disable read of slave: " ++ resp ++ " " ++ id)%string]
      | Err _ => disableReadLoop w id rest
      end
  end.

Definition SlaveFailoverHandler (w : World) (ctx : StateContext)
  : list Event :=
  let cs := ctxClusterState ctx in
  let ns := ctxNodeState ctx in
  disableReadLoop w (Id ns) (AllNodeStates cs).

Definition MasterFailoverHandler (w : World) (ctx : StateContext)
  : list Event :=
  let cs := ctxClusterState ctx in
  let ns := ctxNodeState ctx in
  match MaxReploffSlibing cs (Id ns) true with
  | Err _ =>
      [Log ("No slave can be used for failover " ++ Id ns)%string;
       GoAdvanceFSM (Id ns) CMD_FAILOVER_END_SIGNAL]
  | Ok masterId =>
      [GoRunFailoverTask (Id ns) masterId]
  end.

(** *** States *)

(** What the engine hands to a constraint or handler: the value [i] that
    the Go closures cast with [i.(StateContext)], together with the
    process-wide world those closures reach. *)
Definition Frame : Type := World * StateContext.

Definition cast {A : Type} (f : World -> StateContext -> A) : Frame -> A :=
  fun i => f (fst i) (snd i).

Definition State : Type := fsm.State Frame Event.
Definition Transition : Type := fsm.Transition Frame Input Event.
Definition StateModel : Type := fsm.StateModel Frame Input Event.

Definition RunningState : State :=
  {| fsm.Name := StateRunning;
     fsm.OnEnter := fun _ => [Log "Enter RUNNING state"];
     fsm.OnLeave := fun _ => [Log "Leave RUNNING state"] |}.

Definition WaitFailoverBeginState : State :=
  {| fsm.Name := StateWaitFailoverBegin;
     fsm.OnEnter := fun _ => [Log "Enter WAIT_FAILOVER_BEGIN state"];
     fsm.OnLeave := fun _ => [Log "Leave WAIT_FAILOVER_BEGIN state"] |}.

Definition WaitFailoverEndState : State :=
  {| fsm.Name := StateWaitFailoverEnd;
     fsm.OnEnter := fun _ => [Log "Enter WAIT_FAILOVER_END state"];
     fsm.OnLeave := fun _ => [Log "Leave WAIT_FAILOVER_END state"] |}.

Definition OfflineState : State :=
  {| fsm.Name := StateOffline;
     fsm.OnEnter := fun _ => [Log "Enter OFFLINE state"];
     fsm.OnLeave := fun _ => [Log "Leave OFFLINE state"] |}.

(** *** The transition table of [init] *)

Definition trans (from to : string) (pattern : Input) (priority : Z)
           (constraint : option (Frame -> bool * list Event))
           (handler : option (Frame -> list Event)) : Transition :=
  {| fsm.From := from; fsm.To := to; fsm.Input := pattern;
     fsm.Priority := priority;
     fsm.Constraint := constraint; fsm.Apply := handler |}.

(** (a0) a running node was banned *)
Definition a0 : Transition :=
  trans StateRunning StateOffline (mkInput F F ANY ANY ANY) 0 None None.

(** (a1) the node is down and not banned *)
Definition a1 : Transition :=
  trans StateRunning StateWaitFailoverBegin
        (mkInput T ANY FAIL ANY ANY) 0 None None.

(** (a2) the node is down and not banned *)
Definition a2 : Transition :=
  trans StateRunning StateWaitFailoverBegin
        (mkInput ANY T FAIL ANY ANY) 0 None None.

(** (a3) a slave is down, not banned, and may fail over by itself *)
Definition a3 : Transition :=
  trans StateRunning StateWaitFailoverEnd (mkInput T ANY FAIL S ANY) 1
        (Some (cast SlaveAutoFailoverConstraint))
        (Some (cast SlaveFailoverHandler)).

(** (a4) a master is down, not banned, and may fail over by itself *)
Definition a4 : Transition :=
  trans StateRunning StateWaitFailoverEnd (mkInput T T FAIL M ANY) 1
        (Some (cast MasterAutoFailoverConstraint))
        (Some (cast MasterFailoverHandler)).

(** (b0) the node came back *)
Definition b0 : Transition :=
  trans StateWaitFailoverBegin StateRunning
        (mkInput ANY ANY FINE ANY ANY) 0 None None.

(** (b1) master: automatic failover, or carry on by hand *)
Definition b1 : Transition :=
  trans StateWaitFailoverBegin StateWaitFailoverEnd
        (mkInput ANY ANY FAIL M ANY) 0
        (Some (cast MasterAutoFailoverConstraint))
        (Some (cast MasterFailoverHandler)).

(** (b2) slave: automatic failover, or carry on by hand *)
Definition b2 : Transition :=
  trans StateWaitFailoverBegin StateWaitFailoverEnd
        (mkInput ANY ANY FAIL S ANY) 0
        (Some (cast SlaveAutoFailoverConstraint))
        (Some (cast SlaveFailoverHandler)).

(** (b3) a slave that is banned already goes to OFFLINE *)
Definition b3 : Transition :=
  trans StateWaitFailoverBegin StateOffline
        (mkInput F F FAIL S ANY) 1 None None.

(** (c0) wait for the signal that the failover has ended *)
Definition c0 : Transition :=
  trans StateWaitFailoverEnd StateOffline
        (mkInput ANY ANY ANY ANY CMD_FAILOVER_END_SIGNAL) 0 None None.

(** (c1) the slave is down and banned already *)
Definition c1 : Transition :=
  trans StateWaitFailoverEnd StateOffline
        (mkInput F F FAIL S ANY) 1 None None.

(** (d0) the read flag came back *)
Definition d0 : Transition :=
  trans StateOffline StateRunning (mkInput T ANY ANY ANY ANY) 0 None None.

(** (d1) the write flag came back *)
Definition d1 : Transition :=
  trans StateOffline StateRunning (mkInput ANY T ANY ANY ANY) 0 None None.

(** (d2) a master that is down needs a failover *)
Definition d2 : Transition :=
  trans StateOffline StateWaitFailoverBegin (mkInput F F FAIL M ANY) 0
        (Some (cast OfflineMasterConstraint)) None.

Definition addStates (m : option StateModel) (l : list State)
  : option StateModel :=
  fold_left (fun acc s =>
               match acc with
               | Some m' => fsm.AddState m' s
               | None => None
               end) l m.

Definition addTransitions (m : option StateModel) (l : list Transition)
  : option StateModel :=
  fold_left (fun acc t =>
               match acc with
               | Some m' => fsm.AddTransition m' t
               | None => None
               end) l m.

(** The registrations of [init], in the order of the source. [None]
    would be a registration the engine refuses. *)
Definition init : option StateModel :=
  addTransitions
    (addStates (Some fsm.NewStateModel)
               [RunningState; WaitFailoverBeginState;
                WaitFailoverEndState; OfflineState])
    [a0; a1; a2; a3; a4; b0; b1; b2; b3; c0; c1; d0; d1; d2].

Definition RedisNodeStateModel : StateModel :=
  match init with
  | Some m => m
  | None => fsm.NewStateModel
  end.

(** *** Advancing a node *)

(** Modelled from the spec: the entry point [Advance(node, clusterState,
    input)] is not part of [state_model.go]. It builds the
    [StateContext] of the decision and runs the engine on the node's
    current state. *)
Definition Advance (w : World) (cs : ClusterState) (ns : NodeState)
           (input : Input) : fsm.Outcome Event :=
  let ctx := {| ctxInput := input; ctxClusterState := cs;
                ctxNodeState := ns |} in
  fsm.Advance Eq RedisNodeStateModel (CurrentState ns) (w, ctx) input.

(** The transition [Advance] settles on, if any. *)
Definition Resolve (w : World) (cs : ClusterState) (ns : NodeState)
           (input : Input) : option Transition :=
  let ctx := {| ctxInput := input; ctxClusterState := cs;
                ctxNodeState := ns |} in
  fst (fsm.Next Eq RedisNodeStateModel (CurrentState ns) (w, ctx) input).

(** Does the pattern of [t] accept [input]. *)
Definition accepts (input : Input) (t : Transition) : bool :=
  Eq (fsm.Input t) input.

(** The call the read-ban handler makes to the store node [n]. *)
Definition banCall (id : string) (n : NodeState) : Event :=
  CallDisableRead (Addr n) id.

(** *** Sample clusters *)

Definition mkNode (id region : string) (fail : bool)
           (ranges : list topo.Range) : topo.Node :=
  {| topo.Id := id; topo.Region := region; topo.Fail := fail;
     topo.Ranges := ranges;
     topo.Address := (id ++ ":6379")%string |}.

Definition slots : list topo.Range :=
  [{| topo.Left := 0%Z; topo.Right := 16383%Z |}].

(** A master with its ranges, a demoted master without, and two
    slaves; all in region "bj". *)
Definition nodeA : topo.Node := mkNode "a" "bj" true slots.
Definition nodeA0 : topo.Node := mkNode "a" "bj" true [].
Definition nodeB : topo.Node := mkNode "b" "bj" false [].
Definition nodeC : topo.Node := mkNode "c" "bj" false [].

Definition nsOf (n : topo.Node) (cur : string) : NodeState :=
  {| node := n; current := cur |}.

(** A cluster state over the given node states: one replica set holding
    [members], and a fixed answer to the replication-offset query. *)
Definition cluster (states : list NodeState) (members : list topo.Node)
           (best : result string) : ClusterState :=
  {| FindReplicaSetByNode := fun id =>
       if existsb (fun n => String.eqb (topo.Id n) id) members
       then Some {| topo.Nodes := members |} else None;
     FindNodeState := fun id =>
       match find (fun s => String.eqb (Id s) id) states with
       | Some s => s
       | None => nsOf (mkNode id "" true []) StateOffline
       end;
     AllNodeStates := states;
     MaxReploffSlibing := fun _ _ => best |}.

(** [a] is down in [RUNNING]; [b] and [c] are fine and running. *)
Definition csHealthy : ClusterState :=
  cluster [nsOf nodeA StateRunning; nsOf nodeB StateRunning;
           nsOf nodeC StateRunning]
          [nodeA; nodeB; nodeC] (Ok "b").

(** As [csHealthy], with no slave fit for promotion. *)
Definition csNoCandidate : ClusterState :=
  cluster [nsOf nodeA StateRunning; nsOf nodeB StateRunning;
           nsOf nodeC StateRunning]
          [nodeA; nodeB; nodeC] (Err "no slave").

(** [a] is alone in its replica set. *)
Definition csAlone : ClusterState :=
  cluster [nsOf nodeA StateRunning] [nodeA] (Err "no slave").

(** A node whose replica set cannot be found. *)
Definition csOrphan : ClusterState :=
  cluster [nsOf nodeA StateRunning; nsOf nodeB StateRunning;
           nsOf nodeC StateRunning]
          [nodeB; nodeC] (Ok "b").

(** [c] is already waiting for its own failover. *)
Definition csDegraded : ClusterState :=
  cluster [nsOf nodeA StateRunning; nsOf nodeB StateRunning;
           nsOf nodeC StateWaitFailoverBegin]
          [nodeA; nodeB; nodeC] (Ok "b").

(** No store node answers, every store node answers, only [c] answers. *)
Definition refuses (on : bool) : World :=
  {| AutoFailover := on;
     DisableRead := fun _ _ => Err "connection refused" |}.

Definition answers (on : bool) : World :=
  {| AutoFailover := on; DisableRead := fun _ _ => Ok "OK" |}.

Definition onlyC (on : bool) : World :=
  {| AutoFailover := on;
     DisableRead := fun addr _ =>
       if String.eqb addr "c:6379" then Ok "OK"
       else Err "connection refused" |}.

Definition mkCtx (i : Input) (cs : ClusterState) (ns : NodeState)
  : StateContext :=
  {| ctxInput := i; ctxClusterState := cs; ctxNodeState := ns |}.

(** *** The topology both constraints ask for *)

(** A replica set is found for the node, at least two of its nodes lie
    in the node's region, and every other one of those is neither
    failed nor out of [RUNNING]. *)
Definition Eligible (cs : ClusterState) (ns : NodeState) : Prop :=
  exists rs,
    FindReplicaSetByNode cs (Id ns) = Some rs
    /\ 2 <= length (topo.RegionNodes rs (topo.Region (node ns)))
    /\ forall n, In n (topo.RegionNodes rs (topo.Region (node ns))) ->
                 topo.Id n <> Id ns ->
                 topo.Fail n = false
                 /\ CurrentState (FindNodeState cs (topo.Id n))
                    = StateRunning.

(** No safe takeover: no replica set, fewer than two nodes in the
    region, or another node of the region failed or out of [RUNNING]. *)
Definition Unsafe (cs : ClusterState) (ns : NodeState) : Prop :=
  FindReplicaSetByNode cs (Id ns) = None
  \/ exists rs,
      FindReplicaSetByNode cs (Id ns) = Some rs
      /\ (length (topo.RegionNodes rs (topo.Region (node ns))) < 2
          \/ exists n,
              In n (topo.RegionNodes rs (topo.Region (node ns)))
              /\ topo.Id n <> Id ns
              /\ (topo.Fail n = true
                  \/ CurrentState (FindNodeState cs (topo.Id n))
                     <> StateRunning)).

(** *** Kinds of events *)

Definition isLog (e : Event) : bool :=
  match e with
  | Log _ => true
  | _ => false
  end.

Definition isCall (e : Event) : bool :=
  match e with
  | CallDisableRead _ _ => true
  | _ => false
  end.

Definition isGo (e : Event) : bool :=
  match e with
  | GoAdvanceFSM _ _ | GoRunFailoverTask _ _ => true
  | _ => false
  end.

(** The names of the four registered states. *)
Definition stateNames : list string :=
  [StateRunning; StateWaitFailoverBegin; StateWaitFailoverEnd;
   StateOffline].

(** Whether [t] is offered by the table for this call: it leaves the
    current state, its pattern accepts the input and its constraint
    passes. *)
Definition offered (w : World) (cs : ClusterState) (ns : NodeState)
           (input : Input) (t : Transition) : Prop :=
  In t (fsm.TransTable RedisNodeStateModel)
  /\ fsm.From t = CurrentState ns
  /\ accepts input t = true
  /\ fst (fsm.check t (w, mkCtx input cs ns)) = true.

(* ================================================================ *)
(** ** Properties *)

(** *** The registered table *)

Lemma init_registers :
  init = Some {| fsm.States := [RunningState; WaitFailoverBeginState;
                                WaitFailoverEndState; OfflineState];
                 fsm.TransTable := [a0; a1; a2; a3; a4; b0; b1; b2; b3;
                                    c0; c1; d0; d1; d2] |}.
Proof. reflexivity. Qed.

Lemma model_table :
  fsm.TransTable RedisNodeStateModel
  = [a0; a1; a2; a3; a4; b0; b1; b2; b3; c0; c1; d0; d1; d2].
Proof. reflexivity. Qed.

Lemma model_states :
  fsm.States RedisNodeStateModel
  = [RunningState; WaitFailoverBeginState; WaitFailoverEndState;
     OfflineState].
Proof. reflexivity. Qed.

Lemma matching_running input :
  fsm.matching Eq RedisNodeStateModel StateRunning input
  = filter (accepts input) [a0; a1; a2; a3; a4].
Proof. reflexivity. Qed.

Lemma matching_begin input :
  fsm.matching Eq RedisNodeStateModel StateWaitFailoverBegin input
  = filter (accepts input) [b0; b1; b2; b3].
Proof. reflexivity. Qed.

Lemma matching_end input :
  fsm.matching Eq RedisNodeStateModel StateWaitFailoverEnd input
  = filter (accepts input) [c0; c1].
Proof. reflexivity. Qed.

Lemma matching_offline input :
  fsm.matching Eq RedisNodeStateModel StateOffline input
  = filter (accepts input) [d0; d1; d2].
Proof. reflexivity. Qed.

(** *** The sibling loop *)

Lemma siblingsRunning_true cs self l :
  siblingsRunning cs self l = true <->
  forall n, In n l -> topo.Id n <> self ->
            topo.Fail n = false
            /\ CurrentState (FindNodeState cs (topo.Id n)) = StateRunning.
Proof.
  induction l as [|x l IH]; simpl.
  - split; [intros _ n []|reflexivity].
  - destruct (String.eqb_spec (topo.Id x) self) as [Hx|Hx].
    + rewrite IH. split.
      * intros H n [<-|Hn] Hne; [contradiction|auto].
      * intros H n Hn; apply H; auto.
    + destruct (topo.Fail x) eqn:Hf; simpl.
      * split; [discriminate|].
        intros H. destruct (H x (or_introl eq_refl) Hx) as [Hd _].
        congruence.
      * destruct (String.eqb_spec
                    (CurrentState (FindNodeState cs (topo.Id x)))
                    StateRunning) as [Hr|Hr]; simpl.
        -- rewrite IH. split.
           ++ intros H n [<-|Hn] Hne; auto.
           ++ intros H n Hn; apply H; auto.
        -- split; [discriminate|].
           intros H. destruct (H x (or_introl eq_refl) Hx) as [_ Hd].
           contradiction.
Qed.

Lemma siblingsRunning_false cs self l n :
  In n l -> topo.Id n <> self ->
  topo.Fail n = true
  \/ CurrentState (FindNodeState cs (topo.Id n)) <> StateRunning ->
  siblingsRunning cs self l = false.
Proof.
  intros Hin Hne Hbad.
  destruct (siblingsRunning cs self l) eqn:E; [|reflexivity].
  destruct (proj1 (siblingsRunning_true cs self l) E n Hin Hne) as [Hf Hr].
  destruct Hbad; congruence.
Qed.

(** *** The constraints on a safe and on an unsafe topology *)

Lemma slave_passes w ctx :
  Eligible (ctxClusterState ctx) (ctxNodeState ctx) ->
  SlaveAutoFailoverConstraint w ctx = (true, [Log "can failover slave"]).
Proof.
  intros (rs & Hrs & Hlen & Hsib).
  unfold SlaveAutoFailoverConstraint. rewrite Hrs.
  destruct (Nat.ltb_spec
              (length (topo.RegionNodes rs
                         (topo.Region (node (ctxNodeState ctx))))) 2)
    as [Hlt|_]; [lia|].
  rewrite (proj2 (siblingsRunning_true _ _ _) Hsib). reflexivity.
Qed.

Lemma slave_rejects w ctx :
  Unsafe (ctxClusterState ctx) (ctxNodeState ctx) ->
  SlaveAutoFailoverConstraint w ctx = (false, []).
Proof.
  unfold SlaveAutoFailoverConstraint.
  intros [Hnone|(rs & Hrs & Hbad)].
  - rewrite Hnone. reflexivity.
  - rewrite Hrs. destruct Hbad as [Hlt|(n & Hin & Hne & Hn)].
    + apply Nat.ltb_lt in Hlt. rewrite Hlt. reflexivity.
    + rewrite (siblingsRunning_false _ _ _ n Hin Hne Hn).
      destruct (_ <? 2); reflexivity.
Qed.

Lemma master_passes w ctx :
  AutoFailover w = true
  \/ Command (ctxInput ctx) = CMD_FAILOVER_BEGIN_SIGNAL ->
  Eligible (ctxClusterState ctx) (ctxNodeState ctx) ->
  MasterAutoFailoverConstraint w ctx
  = (true, [Log "Can do failover for master"]).
Proof.
  intros Hon (rs & Hrs & Hlen & Hsib).
  unfold MasterAutoFailoverConstraint.
  replace (negb (AutoFailover w)
           && negb (InputField_eqb (Command (ctxInput ctx))
                                   CMD_FAILOVER_BEGIN_SIGNAL))
    with false
    by (destruct Hon as [-> | ->]; [reflexivity|];
        destruct (AutoFailover w); reflexivity).
  rewrite Hrs.
  destruct (Nat.ltb_spec
              (length (topo.RegionNodes rs
                         (topo.Region (node (ctxNodeState ctx))))) 2)
    as [Hlt|_]; [lia|].
  rewrite (proj2 (siblingsRunning_true _ _ _) Hsib). reflexivity.
Qed.

Lemma master_rejects w ctx :
  Unsafe (ctxClusterState ctx) (ctxNodeState ctx) ->
  MasterAutoFailoverConstraint w ctx = (false, []).
Proof.
  unfold MasterAutoFailoverConstraint.
  destruct (negb (AutoFailover w) && _); [reflexivity|].
  intros [Hnone|(rs & Hrs & Hbad)].
  - rewrite Hnone. reflexivity.
  - rewrite Hrs. destruct Hbad as [Hlt|(n & Hin & Hne & Hn)].
    + apply Nat.ltb_lt in Hlt. rewrite Hlt. reflexivity.
    + rewrite (siblingsRunning_false _ _ _ n Hin Hne Hn).
      destruct (_ <? 2); reflexivity.
Qed.

Lemma InputField_eqb_eq a b : InputField_eqb a b = true <-> a = b.
Proof.
  split; [|intros ->; destruct b; reflexivity].
  destruct a, b; simpl; congruence.
Qed.

Lemma master_flag_off w ctx :
  AutoFailover w = false ->
  Command (ctxInput ctx) <> CMD_FAILOVER_BEGIN_SIGNAL ->
  MasterAutoFailoverConstraint w ctx = (false, []).
Proof.
  intros Hoff Hcmd. unfold MasterAutoFailoverConstraint. rewrite Hoff.
  destruct (InputField_eqb (Command (ctxInput ctx))
                           CMD_FAILOVER_BEGIN_SIGNAL) eqn:E.
  - apply InputField_eqb_eq in E. contradiction.
  - reflexivity.
Qed.

(** With the manual signal in the input the master constraint asks for
    the topology and for nothing else. *)
Lemma master_signal_is_topology w ctx :
  Command (ctxInput ctx) = CMD_FAILOVER_BEGIN_SIGNAL ->
  fst (MasterAutoFailoverConstraint w ctx)
  = fst (SlaveAutoFailoverConstraint w ctx).
Proof.
  intros Hcmd.
  unfold MasterAutoFailoverConstraint, SlaveAutoFailoverConstraint.
  rewrite Hcmd. simpl. rewrite andb_false_r.
  destruct (FindReplicaSetByNode _ _); [|reflexivity].
  destruct (_ <? 2); [reflexivity|].
  destruct (siblingsRunning _ _ _); reflexivity.
Qed.

(** *** Running the engine on the table *)

Lemma passing_cons (t : Transition) rest (i : Frame) :
  fsm.passing (t :: rest) i
  = (if fst (fsm.check t i) then t :: fst (fsm.passing rest i)
     else fst (fsm.passing rest i),
     snd (fsm.check t i) ++ snd (fsm.passing rest i)).
Proof.
  simpl. destruct (fsm.check t i), (fsm.passing rest i). reflexivity.
Qed.

(** Settle which patterns accept the input at hand. *)
Ltac decide_accepts :=
  repeat match goal with
         | |- context [accepts ?i ?t] =>
             let b := eval vm_compute in (accepts i t) in
             change (accepts i t) with b
         end.

(** Replace each check by the constraint it calls. *)
Ltac expose_checks :=
  repeat match goal with
         | |- context [fsm.check ?t ?i] =>
             let r := eval cbv [fsm.check fsm.Constraint t trans cast
                                fst snd] in (fsm.check t i) in
             change (fsm.check t i) with r
         end.

(** Unfold one call of [Advance] from the state named by [Hcur]. *)
Ltac resolve Hcur Hm :=
  unfold Advance, Resolve, fsm.Advance, fsm.Next;
  rewrite Hcur, Hm; cbn [filter]; decide_accepts; cbv iota;
  rewrite ?passing_cons; expose_checks.

(** (a4) fires from [RUNNING] on a failed, unbanned master once its
    constraint passes, whatever the command. *)
Lemma running_master_fires w cs ns c :
  CurrentState ns = StateRunning ->
  AutoFailover w = true \/ c = CMD_FAILOVER_BEGIN_SIGNAL ->
  Eligible cs ns ->
  let input := mkInput T T FAIL M c in
  Resolve w cs ns input = Some a4
  /\ Advance w cs ns input
     = {| fsm.state := StateWaitFailoverEnd;
          fsm.fired := true;
          fsm.trace :=
            Log "Can do failover for master"
            :: MasterFailoverHandler w (mkCtx input cs ns)
            ++ [Log "Leave RUNNING state";
                Log "Enter WAIT_FAILOVER_END state"] |}.
Proof.
  intros Hcur Hon He input. subst input.
  pose proof (master_passes w (mkCtx (mkInput T T FAIL M c) cs ns) Hon He)
    as Hpass.
  unfold mkCtx in Hpass.
  split; resolve Hcur matching_running; rewrite Hpass; reflexivity.
Qed.

(** (a3) fires from [RUNNING] on a failed slave whose reads are on once
    its constraint passes. *)
Lemma running_slave_fires w cs ns wr c :
  CurrentState ns = StateRunning ->
  Eligible cs ns ->
  let input := mkInput T wr FAIL S c in
  Resolve w cs ns input = Some a3
  /\ Advance w cs ns input
     = {| fsm.state := StateWaitFailoverEnd;
          fsm.fired := true;
          fsm.trace :=
            Log "can failover slave"
            :: SlaveFailoverHandler w (mkCtx input cs ns)
            ++ [Log "Leave RUNNING state";
                Log "Enter WAIT_FAILOVER_END state"] |}.
Proof.
  intros Hcur He input. subst input.
  split; destruct wr; resolve Hcur matching_running;
    rewrite (slave_passes w (mkCtx _ cs ns) He); reflexivity.
Qed.

(** (b2) fires from [WAIT_FAILOVER_BEGIN] on a failed slave that is not
    banned on both sides once its constraint passes. *)
Lemma begin_slave_fires w cs ns r wr c :
  CurrentState ns = StateWaitFailoverBegin ->
  ~ (r = F /\ wr = F) ->
  Eligible cs ns ->
  let input := mkInput r wr FAIL S c in
  Resolve w cs ns input = Some b2
  /\ Advance w cs ns input
     = {| fsm.state := StateWaitFailoverEnd;
          fsm.fired := true;
          fsm.trace :=
            Log "can failover slave"
            :: SlaveFailoverHandler w (mkCtx input cs ns)
            ++ [Log "Leave WAIT_FAILOVER_BEGIN state";
                Log "Enter WAIT_FAILOVER_END state"] |}.
Proof.
  intros Hcur Hban He input. subst input.
  split; destruct r, wr; try (exfalso; apply Hban; split; reflexivity);
    resolve Hcur matching_begin;
    rewrite (slave_passes w (mkCtx _ cs ns) He); reflexivity.
Qed.

(** *** The world and the verdicts *)

(** No constraint of the table looks at the store nodes: two worlds
    with the same flag give the same checks. *)
Lemma check_world w w' ctx t :
  In t (fsm.TransTable RedisNodeStateModel) ->
  AutoFailover w' = AutoFailover w ->
  fsm.check t (w', ctx) = fsm.check t (w, ctx).
Proof.
  rewrite model_table. intros Hin Hflag.
  repeat (destruct Hin as [<-|Hin]; [try reflexivity|]);
    try contradiction.
  all: cbv [fsm.check fsm.Constraint a4 b1 trans cast fst snd].
  all: unfold MasterAutoFailoverConstraint; rewrite Hflag; reflexivity.
Qed.

Lemma passing_world w w' ctx ts :
  (forall t, In t ts -> In t (fsm.TransTable RedisNodeStateModel)) ->
  AutoFailover w' = AutoFailover w ->
  fsm.passing ts (w', ctx) = fsm.passing ts (w, ctx).
Proof.
  intros Hsub Hflag. induction ts as [|t ts IH]; [reflexivity|].
  rewrite !passing_cons.
  rewrite (check_world w w' ctx t) by (auto using in_eq).
  rewrite IH by (intros u Hu; apply Hsub; right; exact Hu).
  reflexivity.
Qed.

Lemma next_world w w' ctx cur input :
  AutoFailover w' = AutoFailover w ->
  fsm.Next Eq RedisNodeStateModel cur (w', ctx) input
  = fsm.Next Eq RedisNodeStateModel cur (w, ctx) input.
Proof.
  intros Hflag. unfold fsm.Next.
  rewrite (passing_world w w' ctx) ; [reflexivity| |exact Hflag].
  intros t Ht. unfold fsm.matching in Ht.
  apply filter_In in Ht. tauto.
Qed.

(** *** The read ban *)

Lemma disableReadLoop_first_ack w id pre n post resp :
  (forall m, In m pre -> exists e, DisableRead w (Addr m) id = Err e) ->
  DisableRead w (Addr n) id = Ok resp ->
  disableReadLoop w id (pre ++ n :: post)
  = map (banCall id) (pre ++ [n])
    ++ [Log ("Disable read of slave: " ++ resp ++ " " ++ id)%string].
Proof.
  intros Hpre Hn. induction pre as [|m pre IH]; simpl.
  - rewrite Hn. reflexivity.
  - destruct (Hpre m (or_introl eq_refl)) as [e He]. rewrite He.
    unfold banCall at 1. f_equal. apply IH.
    intros k Hk. apply Hpre. right. exact Hk.
Qed.

Lemma disableReadLoop_all_fail w id l :
  (forall m, In m l -> exists e, DisableRead w (Addr m) id = Err e) ->
  disableReadLoop w id l = map (banCall id) l.
Proof.
  intros Hl. induction l as [|m l IH]; simpl; [reflexivity|].
  destruct (Hl m (or_introl eq_refl)) as [e He]. rewrite He.
  unfold banCall at 1. f_equal. apply IH.
  intros k Hk. apply Hl. right. exact Hk.
Qed.

Lemma healthy_eligible cur : Eligible csHealthy (nsOf nodeA cur).
Proof.
  exists {| topo.Nodes := [nodeA; nodeB; nodeC] |}.
  split; [reflexivity|]. split; [simpl; lia|].
  intros n Hn Hne. simpl in Hn.
  destruct Hn as [<-|[<-|[<-|[]]]]; [|split; reflexivity..].
  exfalso. apply Hne. reflexivity.
Qed.

Lemma noCandidate_eligible cur : Eligible csNoCandidate (nsOf nodeA cur).
Proof.
  exists {| topo.Nodes := [nodeA; nodeB; nodeC] |}.
  split; [reflexivity|]. split; [simpl; lia|].
  intros n Hn Hne. simpl in Hn.
  destruct Hn as [<-|[<-|[<-|[]]]]; [|split; reflexivity..].
  exfalso. apply Hne. reflexivity.
Qed.

(* ================================================================ *)
(** ** Properties of the failover rules *)

(** C1, as amended. From [RUNNING], on the input (T, T, FAIL, MASTER,
    NONE) with the cluster-wide auto-failover flag off, the master
    constraint rejects, so (a4) does not fire and no handler runs; the
    unguarded transition (a1) fires and the node moves to
    [WAIT_FAILOVER_BEGIN]. *)
Theorem C1_flag_off_master_waits_for_failover w cs ns :
  AutoFailover w = false ->
  CurrentState ns = StateRunning ->
  let input := mkInput T T FAIL M CMD_NONE in
  fst (MasterAutoFailoverConstraint w (mkCtx input cs ns)) = false
  /\ Resolve w cs ns input = Some a1
  /\ fsm.Apply a1 = None
  /\ Advance w cs ns input
     = {| fsm.state := StateWaitFailoverBegin;
          fsm.fired := true;
          fsm.trace := [Log "Leave RUNNING state";
                        Log "Enter WAIT_FAILOVER_BEGIN state"] |}.
Proof.
  intros Hoff Hcur input. subst input.
  assert (Hrej : MasterAutoFailoverConstraint w
                   (mkCtx (mkInput T T FAIL M CMD_NONE) cs ns)
                 = (false, []))
    by (apply master_flag_off; [exact Hoff|discriminate]).
  split; [rewrite Hrej; reflexivity|].
  unfold mkCtx in Hrej.
  split; [|split; [reflexivity|]];
    resolve Hcur matching_running; rewrite Hrej; reflexivity.
Qed.

Lemma C1_flag_off_master_waits_for_failover_witness :
  AutoFailover (answers false) = false
  /\ CurrentState (nsOf nodeA StateRunning) = StateRunning
  /\ Advance (answers false) csHealthy (nsOf nodeA StateRunning)
             (mkInput T T FAIL M CMD_NONE)
     = {| fsm.state := StateWaitFailoverBegin;
          fsm.fired := true;
          fsm.trace := [Log "Leave RUNNING state";
                        Log "Enter WAIT_FAILOVER_BEGIN state"] |}.
Proof.
  split; [reflexivity|]. split; [reflexivity|].
  apply (C1_flag_off_master_waits_for_failover
           (answers false) csHealthy (nsOf nodeA StateRunning));
    reflexivity.
Defined.

(** C1, as stated, fails: with the flag off a running master that is
    reported failed does not stay in [RUNNING]. *)
Lemma C1_stays_running_counterexample :
  AutoFailover (answers false) = false
  /\ CurrentState (nsOf nodeA StateRunning) = StateRunning
  /\ fsm.state (Advance (answers false) csHealthy
                        (nsOf nodeA StateRunning)
                        (mkInput T T FAIL M CMD_NONE))
     = StateWaitFailoverBegin
  /\ fsm.state (Advance (answers false) csHealthy
                        (nsOf nodeA StateRunning)
                        (mkInput T T FAIL M CMD_NONE))
     <> StateRunning.
Proof.
  repeat split; try reflexivity. vm_compute. discriminate.
Qed.

(** C2. With the flag off the master constraint rejects every context
    whose command is not the manual begin signal; with that signal in
    the input the verdict does not depend on the flag at all, so from
    [RUNNING] on (T, T, FAIL, MASTER, FAILOVER_BEGIN_SIGNAL) and a
    topology that is otherwise eligible, (a4) fires, the promotion
    handler runs and the node moves to [WAIT_FAILOVER_END]. *)
Theorem C2_manual_signal_overrides_flag w ctx :
  AutoFailover w = false ->
  (Command (ctxInput ctx) <> CMD_FAILOVER_BEGIN_SIGNAL ->
   fst (MasterAutoFailoverConstraint w ctx) = false)
  /\ (Command (ctxInput ctx) = CMD_FAILOVER_BEGIN_SIGNAL ->
      forall w', MasterAutoFailoverConstraint w ctx
                 = MasterAutoFailoverConstraint w' ctx)
  /\ (CurrentState (ctxNodeState ctx) = StateRunning ->
      Eligible (ctxClusterState ctx) (ctxNodeState ctx) ->
      let cs := ctxClusterState ctx in
      let ns := ctxNodeState ctx in
      let input := mkInput T T FAIL M CMD_FAILOVER_BEGIN_SIGNAL in
      fst (MasterAutoFailoverConstraint w (mkCtx input cs ns)) = true
      /\ Resolve w cs ns input = Some a4
      /\ fsm.Apply a4 = Some (cast MasterFailoverHandler)
      /\ Advance w cs ns input
         = {| fsm.state := StateWaitFailoverEnd;
              fsm.fired := true;
              fsm.trace :=
                Log "Can do failover for master"
                :: MasterFailoverHandler w (mkCtx input cs ns)
                ++ [Log "Leave RUNNING state";
                    Log "Enter WAIT_FAILOVER_END state"] |}).
Proof.
  intros Hoff. split; [|split].
  - intros Hcmd. rewrite (master_flag_off w ctx Hoff Hcmd). reflexivity.
  - intros Hcmd w'. unfold MasterAutoFailoverConstraint.
    rewrite Hcmd. simpl. rewrite !andb_false_r. reflexivity.
  - intros Hcur He cs ns input.
    destruct (running_master_fires w cs ns CMD_FAILOVER_BEGIN_SIGNAL
                Hcur (or_intror eq_refl) He) as [Hres Hadv].
    split; [|split; [exact Hres|split; [reflexivity|exact Hadv]]].
    rewrite (master_passes w (mkCtx input cs ns)
               (or_intror eq_refl) He).
    reflexivity.
Qed.

Lemma C2_manual_signal_overrides_flag_witness :
  AutoFailover (answers false) = false
  /\ fst (MasterAutoFailoverConstraint
            (answers false)
            (mkCtx (mkInput T T FAIL M CMD_NONE) csHealthy
                   (nsOf nodeA StateRunning))) = false
  /\ Advance (answers false) csHealthy (nsOf nodeA StateRunning)
             (mkInput T T FAIL M CMD_FAILOVER_BEGIN_SIGNAL)
     = {| fsm.state := StateWaitFailoverEnd;
          fsm.fired := true;
          fsm.trace := [Log "Can do failover for master";
                        GoRunFailoverTask "a" "b";
                        Log "Leave RUNNING state";
                        Log "Enter WAIT_FAILOVER_END state"] |}.
Proof.
  split; [reflexivity|]. split.
  - apply (C2_manual_signal_overrides_flag
             (answers false)
             (mkCtx (mkInput T T FAIL M CMD_NONE) csHealthy
                    (nsOf nodeA StateRunning)) eq_refl).
    discriminate.
  - apply (C2_manual_signal_overrides_flag
             (answers false)
             (mkCtx (mkInput T T FAIL M CMD_FAILOVER_BEGIN_SIGNAL)
                    csHealthy (nsOf nodeA StateRunning)) eq_refl).
    + reflexivity.
    + apply healthy_eligible.
Defined.

(** C3. For every node and cluster state, the slave constraint and the
    master constraint both return false when no replica set is found
    for the node, when fewer than two nodes of its replica set lie in
    its region, or when another node of that region is marked failed or
    is not in [RUNNING]. *)
Theorem C3_constraints_reject_unsafe_topology w ctx :
  Unsafe (ctxClusterState ctx) (ctxNodeState ctx) ->
  fst (SlaveAutoFailoverConstraint w ctx) = false
  /\ fst (MasterAutoFailoverConstraint w ctx) = false.
Proof.
  intros Hbad.
  rewrite (slave_rejects w ctx Hbad), (master_rejects w ctx Hbad).
  split; reflexivity.
Qed.

Lemma C3_constraints_reject_unsafe_topology_witness :
  (fst (SlaveAutoFailoverConstraint
          (answers true)
          (mkCtx (mkInput T T FAIL M CMD_NONE) csOrphan
                 (nsOf nodeA StateRunning))) = false
   /\ fst (MasterAutoFailoverConstraint
             (answers true)
             (mkCtx (mkInput T T FAIL M CMD_NONE) csOrphan
                    (nsOf nodeA StateRunning))) = false)
  /\ (fst (SlaveAutoFailoverConstraint
             (answers true)
             (mkCtx (mkInput T T FAIL M CMD_NONE) csAlone
                    (nsOf nodeA StateRunning))) = false
      /\ fst (MasterAutoFailoverConstraint
                (answers true)
                (mkCtx (mkInput T T FAIL M CMD_NONE) csAlone
                       (nsOf nodeA StateRunning))) = false)
  /\ (fst (SlaveAutoFailoverConstraint
             (answers true)
             (mkCtx (mkInput T T FAIL M CMD_NONE) csDegraded
                    (nsOf nodeA StateRunning))) = false
      /\ fst (MasterAutoFailoverConstraint
                (answers true)
                (mkCtx (mkInput T T FAIL M CMD_NONE) csDegraded
                       (nsOf nodeA StateRunning))) = false).
Proof.
  split; [|split].
  - apply (C3_constraints_reject_unsafe_topology
             (answers true)
             (mkCtx (mkInput T T FAIL M CMD_NONE) csOrphan
                    (nsOf nodeA StateRunning))).
    left. reflexivity.
  - apply (C3_constraints_reject_unsafe_topology
             (answers true)
             (mkCtx (mkInput T T FAIL M CMD_NONE) csAlone
                    (nsOf nodeA StateRunning))).
    right. exists {| topo.Nodes := [nodeA] |}.
    split; [reflexivity|]. left. simpl. lia.
  - apply (C3_constraints_reject_unsafe_topology
             (answers true)
             (mkCtx (mkInput T T FAIL M CMD_NONE) csDegraded
                    (nsOf nodeA StateRunning))).
    right. exists {| topo.Nodes := [nodeA; nodeB; nodeC] |}.
    split; [reflexivity|]. right. exists nodeC.
    split; [simpl; auto|]. split; [discriminate|].
    right. discriminate.
Defined.

(** C4. The constraint of the transition from [OFFLINE] to
    [WAIT_FAILOVER_BEGIN] returns false exactly when the node's failed
    flag is set and the node owns no key range; so a failed node in
    [OFFLINE] that owns no key range is moved to [WAIT_FAILOVER_BEGIN]
    by no input, and on (F, F, FAIL, MASTER, any command) it stays in
    [OFFLINE] with nothing fired. *)
Theorem C4_demoted_master_is_not_failed_over_again w cs ns :
  fsm.Constraint d2 = Some (cast OfflineMasterConstraint)
  /\ (forall i,
        fst (OfflineMasterConstraint w (mkCtx i cs ns)) = false
        <-> topo.Fail (node ns) = true /\ topo.Ranges (node ns) = [])
  /\ (CurrentState ns = StateOffline ->
      topo.Fail (node ns) = true ->
      topo.Ranges (node ns) = [] ->
      (forall input,
          fsm.state (Advance w cs ns input) <> StateWaitFailoverBegin)
      /\ (forall c,
             Advance w cs ns (mkInput F F FAIL M c)
             = {| fsm.state := StateOffline;
                  fsm.fired := false;
                  fsm.trace := [] |})).
Proof.
  split; [reflexivity|]. split.
  - intros i. unfold OfflineMasterConstraint. simpl.
    destruct (topo.Fail (node ns)); simpl.
    + destruct (topo.Ranges (node ns)); simpl; split;
        try discriminate; try (intros [_ H]; discriminate); auto.
    + split; [discriminate|intros [H _]; discriminate].
  - intros Hcur Hfail Hranges.
    assert (Hrej : forall i, OfflineMasterConstraint w (mkCtx i cs ns)
                             = (false, [])).
    { intros i. unfold OfflineMasterConstraint. simpl.
      rewrite Hfail, Hranges. reflexivity. }
    unfold mkCtx in Hrej. split.
    + intros input.
      unfold Advance, fsm.Advance, fsm.Next.
      rewrite Hcur, matching_offline. cbn [filter].
      destruct (accepts input d0), (accepts input d1),
               (accepts input d2);
        rewrite ?passing_cons; expose_checks; rewrite ?Hrej;
        simpl; discriminate.
    + intros c. resolve Hcur matching_offline. rewrite Hrej.
      reflexivity.
Qed.

Lemma C4_demoted_master_is_not_failed_over_again_witness :
  CurrentState (nsOf nodeA0 StateOffline) = StateOffline
  /\ topo.Fail (node (nsOf nodeA0 StateOffline)) = true
  /\ topo.Ranges (node (nsOf nodeA0 StateOffline)) = []
  /\ Advance (answers true) csHealthy (nsOf nodeA0 StateOffline)
             (mkInput F F FAIL M CMD_NONE)
     = {| fsm.state := StateOffline; fsm.fired := false;
          fsm.trace := [] |}.
Proof.
  split; [reflexivity|]. split; [reflexivity|]. split; [reflexivity|].
  apply (C4_demoted_master_is_not_failed_over_again
           (answers true) csHealthy (nsOf nodeA0 StateOffline));
    reflexivity.
Defined.

(** C5. From [WAIT_FAILOVER_BEGIN], on (F, F, FAIL, SLAVE, any
    command), the patterns of (b2), priority 0, towards
    [WAIT_FAILOVER_END], and of (b3), priority 1, towards [OFFLINE],
    both accept the input; whatever the slave constraint says, and so
    also when it passes, (b3) fires and the node moves to [OFFLINE]. *)
Theorem C5_priority_one_beats_slave_failover w cs ns c :
  CurrentState ns = StateWaitFailoverBegin ->
  let input := mkInput F F FAIL S c in
  fsm.matching Eq RedisNodeStateModel (CurrentState ns) input = [b2; b3]
  /\ (fsm.Priority b2 = 0%Z /\ fsm.To b2 = StateWaitFailoverEnd)
  /\ (fsm.Priority b3 = 1%Z /\ fsm.To b3 = StateOffline)
  /\ Resolve w cs ns input = Some b3
  /\ fsm.state (Advance w cs ns input) = StateOffline
  /\ fsm.fired (Advance w cs ns input) = true
  /\ (Eligible cs ns ->
      fst (SlaveAutoFailoverConstraint w (mkCtx input cs ns)) = true
      /\ Advance w cs ns input
         = {| fsm.state := StateOffline;
              fsm.fired := true;
              fsm.trace := [Log "can failover slave";
                            Log "Leave WAIT_FAILOVER_BEGIN state";
                            Log "Enter OFFLINE state"] |}).
Proof.
  intros Hcur input. subst input.
  split; [rewrite Hcur, matching_begin; reflexivity|].
  split; [split; reflexivity|]. split; [split; reflexivity|].
  split; [|split; [|split]].
  - resolve Hcur matching_begin.
    destruct (SlaveAutoFailoverConstraint w _) as [[] out]; reflexivity.
  - resolve Hcur matching_begin.
    destruct (SlaveAutoFailoverConstraint w _) as [[] out]; reflexivity.
  - resolve Hcur matching_begin.
    destruct (SlaveAutoFailoverConstraint w _) as [[] out]; reflexivity.
  - intros He.
    pose proof (slave_passes w (mkCtx (mkInput F F FAIL S c) cs ns) He)
      as Hpass.
    split; [rewrite Hpass; reflexivity|].
    unfold mkCtx in Hpass.
    resolve Hcur matching_begin. rewrite Hpass. reflexivity.
Qed.

Lemma C5_priority_one_beats_slave_failover_witness :
  CurrentState (nsOf nodeA StateWaitFailoverBegin)
  = StateWaitFailoverBegin
  /\ fst (SlaveAutoFailoverConstraint
            (answers false)
            (mkCtx (mkInput F F FAIL S CMD_NONE) csHealthy
                   (nsOf nodeA StateWaitFailoverBegin))) = true
  /\ Resolve (answers false) csHealthy
             (nsOf nodeA StateWaitFailoverBegin)
             (mkInput F F FAIL S CMD_NONE) = Some b3
  /\ fsm.state (Advance (answers false) csHealthy
                        (nsOf nodeA StateWaitFailoverBegin)
                        (mkInput F F FAIL S CMD_NONE)) = StateOffline.
Proof.
  split; [reflexivity|]. split; [reflexivity|].
  split;
    apply (C5_priority_one_beats_slave_failover
             (answers false) csHealthy
             (nsOf nodeA StateWaitFailoverBegin) CMD_NONE eq_refl).
Defined.

(** C6. From [WAIT_FAILOVER_END], every input whose command is the
    failover-end signal moves the node to [OFFLINE], whatever its read,
    write, health and role fields are; the transition that fires has no
    handler, and only the leave and enter hooks are heard. *)
Theorem C6_end_signal_takes_node_offline w cs ns r wr h ro :
  CurrentState ns = StateWaitFailoverEnd ->
  let input := mkInput r wr h ro CMD_FAILOVER_END_SIGNAL in
  (exists t, Resolve w cs ns input = Some t
             /\ fsm.To t = StateOffline
             /\ fsm.Apply t = None)
  /\ Advance w cs ns input
     = {| fsm.state := StateOffline;
          fsm.fired := true;
          fsm.trace := [Log "Leave WAIT_FAILOVER_END state";
                        Log "Enter OFFLINE state"] |}.
Proof.
  intros Hcur input. subst input.
  unfold Advance, Resolve, fsm.Advance, fsm.Next.
  rewrite Hcur, matching_end. cbn [filter].
  change (accepts _ c0) with true. cbv iota.
  destruct (accepts _ c1); rewrite ?passing_cons; expose_checks.
  - split; [exists c1; repeat split; reflexivity|reflexivity].
  - split; [exists c0; repeat split; reflexivity|reflexivity].
Qed.

Lemma C6_end_signal_takes_node_offline_witness :
  CurrentState (nsOf nodeA StateWaitFailoverEnd) = StateWaitFailoverEnd
  /\ Advance (refuses false) csNoCandidate
             (nsOf nodeA StateWaitFailoverEnd)
             (mkInput T T FAIL M CMD_FAILOVER_END_SIGNAL)
     = {| fsm.state := StateOffline;
          fsm.fired := true;
          fsm.trace := [Log "Leave WAIT_FAILOVER_END state";
                        Log "Enter OFFLINE state"] |}.
Proof.
  split; [reflexivity|].
  apply (C6_end_signal_takes_node_offline
           (refuses false) csNoCandidate
           (nsOf nodeA StateWaitFailoverEnd) T T FAIL M eq_refl).
Defined.

(** C7. From [RUNNING], on (F, F, FINE, SLAVE, NONE), exactly one
    registered transition leaves the state with a pattern that accepts
    the input, (a0); it has no handler, and the node moves to
    [OFFLINE]. *)
Theorem C7_banned_running_node_goes_offline w cs ns :
  CurrentState ns = StateRunning ->
  let input := mkInput F F FINE S CMD_NONE in
  fsm.matching Eq RedisNodeStateModel (CurrentState ns) input = [a0]
  /\ Resolve w cs ns input = Some a0
  /\ fsm.Apply a0 = None
  /\ Advance w cs ns input
     = {| fsm.state := StateOffline;
          fsm.fired := true;
          fsm.trace := [Log "Leave RUNNING state";
                        Log "Enter OFFLINE state"] |}.
Proof.
  intros Hcur input. subst input.
  split; [rewrite Hcur, matching_running; reflexivity|].
  split; [|split; [reflexivity|]];
    resolve Hcur matching_running; reflexivity.
Qed.

Lemma C7_banned_running_node_goes_offline_witness :
  CurrentState (nsOf nodeB StateRunning) = StateRunning
  /\ Advance (answers true) csHealthy (nsOf nodeB StateRunning)
             (mkInput F F FINE S CMD_NONE)
     = {| fsm.state := StateOffline;
          fsm.fired := true;
          fsm.trace := [Log "Leave RUNNING state";
                        Log "Enter OFFLINE state"] |}.
Proof.
  split; [reflexivity|].
  apply (C7_banned_running_node_goes_offline
           (answers true) csHealthy (nsOf nodeB StateRunning) eq_refl).
Defined.

(** C8, as amended. The read-ban handler calls the store nodes in the
    order of [AllNodeStates] and stops at the first one that answers
    without an error, which it logs. When every call fails it has
    called every address and has written nothing: the failure is passed
    over in silence. In either case the handler hands nothing back, and
    the state [Advance] reaches, and whether it fires, do not depend on
    what the store nodes answer. *)
Theorem C8_read_ban_is_best_effort w ctx :
  let id := Id (ctxNodeState ctx) in
  let all := AllNodeStates (ctxClusterState ctx) in
  (forall pre n post resp,
      all = pre ++ n :: post ->
      (forall m, In m pre ->
                 exists e, DisableRead w (Addr m) id = Err e) ->
      DisableRead w (Addr n) id = Ok resp ->
      SlaveFailoverHandler w ctx
      = map (banCall id) (pre ++ [n])
        ++ [Log ("Disable read of slave: " ++ resp ++ " " ++ id)%string])
  /\ ((forall m, In m all ->
                 exists e, DisableRead w (Addr m) id = Err e) ->
      SlaveFailoverHandler w ctx = map (banCall id) all)
  /\ (forall w' cs ns input,
        AutoFailover w' = AutoFailover w ->
        fsm.state (Advance w' cs ns input)
        = fsm.state (Advance w cs ns input)
        /\ fsm.fired (Advance w' cs ns input)
           = fsm.fired (Advance w cs ns input)).
Proof.
  intros id all. split; [|split].
  - intros pre n post resp Hall Hpre Hn.
    unfold SlaveFailoverHandler. fold id. fold all. rewrite Hall.
    apply disableReadLoop_first_ack; assumption.
  - intros Hfail. unfold SlaveFailoverHandler.
    apply disableReadLoop_all_fail. exact Hfail.
  - intros w' cs ns input Hflag.
    unfold Advance, fsm.Advance.
    rewrite (next_world w w' _ _ _ Hflag).
    destruct (fsm.Next _ _ _ _ _) as [[t|] out]; split; reflexivity.
Qed.

Lemma C8_read_ban_is_best_effort_witness :
  SlaveFailoverHandler
    (onlyC false)
    (mkCtx (mkInput T T FAIL S CMD_NONE) csHealthy
           (nsOf nodeA StateRunning))
  = [CallDisableRead "a:6379" "a"; CallDisableRead "b:6379" "a";
     CallDisableRead "c:6379" "a"; Log "Disable read of slave: OK a"]
  /\ SlaveFailoverHandler
       (refuses false)
       (mkCtx (mkInput T T FAIL S CMD_NONE) csHealthy
              (nsOf nodeA StateRunning))
     = [CallDisableRead "a:6379" "a"; CallDisableRead "b:6379" "a";
        CallDisableRead "c:6379" "a"]
  /\ fsm.state (Advance (refuses false) csHealthy
                        (nsOf nodeA StateRunning)
                        (mkInput T T FAIL S CMD_NONE))
     = fsm.state (Advance (answers false) csHealthy
                          (nsOf nodeA StateRunning)
                          (mkInput T T FAIL S CMD_NONE)).
Proof.
  split; [|split].
  - apply (proj1 (C8_read_ban_is_best_effort
                    (onlyC false)
                    (mkCtx (mkInput T T FAIL S CMD_NONE) csHealthy
                           (nsOf nodeA StateRunning)))
                 [nsOf nodeA StateRunning; nsOf nodeB StateRunning]
                 (nsOf nodeC StateRunning) [] "OK").
    + reflexivity.
    + intros m [<-|[<-|[]]]; exists "connection refused"; reflexivity.
    + reflexivity.
  - apply (proj1 (proj2 (C8_read_ban_is_best_effort
                           (refuses false)
                           (mkCtx (mkInput T T FAIL S CMD_NONE) csHealthy
                                  (nsOf nodeA StateRunning))))).
    intros m _. exists "connection refused". reflexivity.
  - apply (proj2 (proj2 (C8_read_ban_is_best_effort
                           (answers false)
                           (mkCtx (mkInput T T FAIL S CMD_NONE) csHealthy
                                  (nsOf nodeA StateRunning))))).
    reflexivity.
Defined.

(** C8, as stated, fails on the warning: when the ban fails against
    every address the handler, and with it the whole call of [Advance],
    writes no line about it; the only lines are the constraint's and
    the two hooks'. *)
Lemma C8_total_failure_is_silent_counterexample :
  (forall m, In m (AllNodeStates csHealthy) ->
             DisableRead (refuses false) (Addr m) "a"
             = Err "connection refused")
  /\ (forall line,
        ~ In (Log line)
             (SlaveFailoverHandler
                (refuses false)
                (mkCtx (mkInput T T FAIL S CMD_NONE) csHealthy
                       (nsOf nodeA StateRunning))))
  /\ Advance (refuses false) csHealthy (nsOf nodeA StateRunning)
             (mkInput T T FAIL S CMD_NONE)
     = {| fsm.state := StateWaitFailoverEnd;
          fsm.fired := true;
          fsm.trace := [Log "can failover slave";
                        CallDisableRead "a:6379" "a";
                        CallDisableRead "b:6379" "a";
                        CallDisableRead "c:6379" "a";
                        Log "Leave RUNNING state";
                        Log "Enter WAIT_FAILOVER_END state"] |}.
Proof.
  split; [reflexivity|]. split; [|reflexivity].
  intros line. simpl. intros [H|[H|[H|[]]]]; discriminate.
Qed.

(** C9. The promotion handler asks the cluster state for the sibling
    with the highest replication offset. When the query reports none,
    the handler does not fail: it notes it and starts, as a goroutine,
    an [AdvanceFSM] of the same node with the failover-end signal. When
    the query names a candidate, it starts, as a goroutine, the
    failover task with the failing node's id and the candidate's id, and
    takes nothing back from it. Nothing of the re-drive happens inside
    the call: when (a4) fires without a candidate the node is in
    [WAIT_FAILOVER_END] afterwards, the re-drive being only started. *)
Theorem C9_promotion_or_deferred_end_signal w ctx :
  let cs := ctxClusterState ctx in
  let ns := ctxNodeState ctx in
  (forall e,
      MaxReploffSlibing cs (Id ns) true = Err e ->
      MasterFailoverHandler w ctx
      = [Log ("No slave can be used for failover " ++ Id ns)%string;
         GoAdvanceFSM (Id ns) CMD_FAILOVER_END_SIGNAL])
  /\ (forall masterId,
        MaxReploffSlibing cs (Id ns) true = Ok masterId ->
        MasterFailoverHandler w ctx
        = [GoRunFailoverTask (Id ns) masterId])
  /\ (forall e c,
        MaxReploffSlibing cs (Id ns) true = Err e ->
        CurrentState ns = StateRunning ->
        AutoFailover w = true ->
        Eligible cs ns ->
        Advance w cs ns (mkInput T T FAIL M c)
        = {| fsm.state := StateWaitFailoverEnd;
             fsm.fired := true;
             fsm.trace :=
               [Log "Can do failover for master";
                Log ("No slave can be used for failover "
                     ++ Id ns)%string;
                GoAdvanceFSM (Id ns) CMD_FAILOVER_END_SIGNAL;
                Log "Leave RUNNING state";
                Log "Enter WAIT_FAILOVER_END state"] |}).
Proof.
  intros cs ns. split; [|split].
  - intros e He. unfold MasterFailoverHandler. fold cs ns.
    rewrite He. reflexivity.
  - intros masterId Hm. unfold MasterFailoverHandler. fold cs ns.
    rewrite Hm. reflexivity.
  - intros e c He Hcur Hon Helig.
    destruct (running_master_fires w cs ns c Hcur (or_introl Hon) Helig)
      as [_ Hadv].
    cbv zeta in Hadv. rewrite Hadv.
    unfold MasterFailoverHandler. simpl. rewrite He. reflexivity.
Qed.

Lemma C9_promotion_or_deferred_end_signal_witness :
  MasterFailoverHandler
    (answers true)
    (mkCtx (mkInput T T FAIL M CMD_NONE) csNoCandidate
           (nsOf nodeA StateRunning))
  = [Log "No slave can be used for failover a";
     GoAdvanceFSM "a" CMD_FAILOVER_END_SIGNAL]
  /\ MasterFailoverHandler
       (answers true)
       (mkCtx (mkInput T T FAIL M CMD_NONE) csHealthy
              (nsOf nodeA StateRunning))
     = [GoRunFailoverTask "a" "b"]
  /\ fsm.state (Advance (answers true) csNoCandidate
                        (nsOf nodeA StateRunning)
                        (mkInput T T FAIL M CMD_NONE))
     = StateWaitFailoverEnd.
Proof.
  split; [|split].
  - apply (proj1 (C9_promotion_or_deferred_end_signal
                    (answers true)
                    (mkCtx (mkInput T T FAIL M CMD_NONE) csNoCandidate
                           (nsOf nodeA StateRunning)))
                 "no slave").
    reflexivity.
  - apply (proj1 (proj2 (C9_promotion_or_deferred_end_signal
                           (answers true)
                           (mkCtx (mkInput T T FAIL M CMD_NONE) csHealthy
                                  (nsOf nodeA StateRunning))))
                 "b").
    reflexivity.
  - exact (f_equal (@fsm.state Event)
                   (proj2 (proj2 (C9_promotion_or_deferred_end_signal
                                    (answers true)
                                    (mkCtx (mkInput T T FAIL M CMD_NONE)
                                           csNoCandidate
                                           (nsOf nodeA StateRunning))))
                          "no slave" CMD_NONE eq_refl eq_refl eq_refl
                          (noCandidate_eligible StateRunning))).
Defined.

(** C10. The slave constraint gives the same result in any two worlds,
    so in particular in two that differ in the auto-failover flag, for
    one and the same context. With the flag off and an eligible
    topology the slave failover therefore still fires: (a3) from
    [RUNNING] on (T, any, FAIL, SLAVE, any), and (b2) from
    [WAIT_FAILOVER_BEGIN] on (any, any, FAIL, SLAVE, any) unless read
    and write are both banned; both run the read-ban handler and lead
    to [WAIT_FAILOVER_END]. The master constraint, on the same
    context, does follow the flag. *)
Theorem C10_slave_failover_ignores_flag w1 w2 ctx :
  SlaveAutoFailoverConstraint w1 ctx = SlaveAutoFailoverConstraint w2 ctx
  /\ (AutoFailover w1 = false ->
      Eligible (ctxClusterState ctx) (ctxNodeState ctx) ->
      let cs := ctxClusterState ctx in
      let ns := ctxNodeState ctx in
      (forall wr c,
          CurrentState ns = StateRunning ->
          Resolve w1 cs ns (mkInput T wr FAIL S c) = Some a3
          /\ fsm.state (Advance w1 cs ns (mkInput T wr FAIL S c))
             = StateWaitFailoverEnd)
      /\ (forall r wr c,
             CurrentState ns = StateWaitFailoverBegin ->
             ~ (r = F /\ wr = F) ->
             Resolve w1 cs ns (mkInput r wr FAIL S c) = Some b2
             /\ fsm.state (Advance w1 cs ns (mkInput r wr FAIL S c))
                = StateWaitFailoverEnd)
      /\ fsm.Apply a3 = Some (cast SlaveFailoverHandler)
      /\ fsm.Apply b2 = Some (cast SlaveFailoverHandler)
      /\ (Command (ctxInput ctx) <> CMD_FAILOVER_BEGIN_SIGNAL ->
          fst (MasterAutoFailoverConstraint w1 ctx) = false
          /\ (AutoFailover w2 = true ->
              fst (MasterAutoFailoverConstraint w2 ctx) = true))).
Proof.
  split; [reflexivity|].
  intros Hoff He cs ns.
  split; [|split; [|split; [reflexivity|split; [reflexivity|]]]].
  - intros wr c Hcur.
    destruct (running_slave_fires w1 cs ns wr c Hcur He) as [Hres Hadv].
    split; [exact Hres|]. cbv zeta in Hadv. rewrite Hadv. reflexivity.
  - intros r wr c Hcur Hban.
    destruct (begin_slave_fires w1 cs ns r wr c Hcur Hban He)
      as [Hres Hadv].
    split; [exact Hres|]. cbv zeta in Hadv. rewrite Hadv. reflexivity.
  - intros Hcmd. split.
    + rewrite (master_flag_off w1 ctx Hoff Hcmd). reflexivity.
    + intros Hon. rewrite (master_passes w2 ctx (or_introl Hon) He).
      reflexivity.
Qed.

Lemma C10_slave_failover_ignores_flag_witness :
  AutoFailover (answers false) = false
  /\ fsm.state (Advance (answers false) csHealthy
                        (nsOf nodeA StateRunning)
                        (mkInput T T FAIL S CMD_NONE))
     = StateWaitFailoverEnd
  /\ fsm.state (Advance (answers false) csHealthy
                        (nsOf nodeA StateWaitFailoverBegin)
                        (mkInput T T FAIL S CMD_NONE))
     = StateWaitFailoverEnd
  /\ fst (MasterAutoFailoverConstraint
            (answers false)
            (mkCtx (mkInput T T FAIL S CMD_NONE) csHealthy
                   (nsOf nodeA StateRunning))) = false
  /\ fst (MasterAutoFailoverConstraint
            (answers true)
            (mkCtx (mkInput T T FAIL S CMD_NONE) csHealthy
                   (nsOf nodeA StateRunning))) = true.
Proof.
  pose proof (proj2 (C10_slave_failover_ignores_flag
                       (answers false) (answers true)
                       (mkCtx (mkInput T T FAIL S CMD_NONE) csHealthy
                              (nsOf nodeA StateRunning)))
                    eq_refl (healthy_eligible StateRunning)) as Hrun.
  pose proof (proj2 (C10_slave_failover_ignores_flag
                       (answers false) (answers true)
                       (mkCtx (mkInput T T FAIL S CMD_NONE) csHealthy
                              (nsOf nodeA StateWaitFailoverBegin)))
                    eq_refl (healthy_eligible StateWaitFailoverBegin))
    as Hbegin.
  cbv zeta in Hrun, Hbegin.
  split; [reflexivity|]. split; [|split].
  - exact (proj2 (proj1 Hrun T CMD_NONE eq_refl)).
  - refine (proj2 (proj1 (proj2 Hbegin) T T CMD_NONE eq_refl _)).
    intros [H _]. discriminate.
  - assert (Hcmd : CMD_NONE <> CMD_FAILOVER_BEGIN_SIGNAL) by discriminate.
    split.
    + exact (proj1 (proj2 (proj2 (proj2 (proj2 Hrun))) Hcmd)).
    + exact (proj2 (proj2 (proj2 (proj2 (proj2 Hrun))) Hcmd) eq_refl).
Defined.

(* ================================================================ *)
(** ** Further properties of the constraints *)

Lemma siblingsRunning_false_inv cs self l :
  siblingsRunning cs self l = false ->
  exists n, In n l /\ topo.Id n <> self
            /\ (topo.Fail n = true
                \/ CurrentState (FindNodeState cs (topo.Id n))
                   <> StateRunning).
Proof.
  induction l as [|x l IH]; simpl; [discriminate|].
  destruct (String.eqb_spec (topo.Id x) self) as [Hx|Hx].
  - intros H. destruct (IH H) as (n & Hin & Hn). exists n. auto.
  - destruct (topo.Fail x) eqn:Hf; simpl.
    + intros _. exists x. auto.
    + destruct (String.eqb_spec
                  (CurrentState (FindNodeState cs (topo.Id x)))
                  StateRunning) as [Hr|Hr]; simpl.
      * intros H. destruct (IH H) as (n & Hin & Hn). exists n. auto.
      * intros _. exists x. auto.
Qed.

Lemma slave_true_eligible w ctx :
  fst (SlaveAutoFailoverConstraint w ctx) = true ->
  Eligible (ctxClusterState ctx) (ctxNodeState ctx).
Proof.
  unfold SlaveAutoFailoverConstraint, Eligible.
  destruct (FindReplicaSetByNode _ _) as [rs|]; [|discriminate].
  destruct (Nat.ltb_spec
              (length (topo.RegionNodes rs
                         (topo.Region (node (ctxNodeState ctx))))) 2)
    as [Hlt|Hge]; [discriminate|].
  destruct (siblingsRunning _ _ _) eqn:Hs; [|discriminate].
  intros _. exists rs. split; [reflexivity|]. split; [exact Hge|].
  apply siblingsRunning_true. exact Hs.
Qed.

Lemma slave_false_unsafe w ctx :
  fst (SlaveAutoFailoverConstraint w ctx) = false ->
  Unsafe (ctxClusterState ctx) (ctxNodeState ctx).
Proof.
  unfold SlaveAutoFailoverConstraint, Unsafe.
  destruct (FindReplicaSetByNode _ _) as [rs|]; [|intros _; left; reflexivity].
  intros H. right. exists rs. split; [reflexivity|].
  destruct (Nat.ltb_spec
              (length (topo.RegionNodes rs
                         (topo.Region (node (ctxNodeState ctx))))) 2)
    as [Hlt|Hge]; [left; exact Hlt|].
  destruct (siblingsRunning _ _ _) eqn:Hs; [discriminate|].
  right. apply siblingsRunning_false_inv with (1 := Hs).
Qed.

(** X1. The slave constraint passes exactly on an eligible topology and
    rejects exactly on an unsafe one: the three reasons to reject are the
    only ones. *)
Theorem X1_slave_constraint_exact w ctx :
  (fst (SlaveAutoFailoverConstraint w ctx) = true
   <-> Eligible (ctxClusterState ctx) (ctxNodeState ctx))
  /\ (fst (SlaveAutoFailoverConstraint w ctx) = false
      <-> Unsafe (ctxClusterState ctx) (ctxNodeState ctx)).
Proof.
  split; split.
  - apply slave_true_eligible.
  - intros He. rewrite (slave_passes w ctx He). reflexivity.
  - apply slave_false_unsafe.
  - intros Hu. rewrite (slave_rejects w ctx Hu). reflexivity.
Qed.

Lemma X1_slave_constraint_exact_witness :
  fst (SlaveAutoFailoverConstraint
         (answers false)
         (mkCtx (mkInput T T FAIL S CMD_NONE) csHealthy
                (nsOf nodeA StateRunning))) = true
  /\ Unsafe csAlone (nsOf nodeA StateRunning).
Proof.
  split.
  - apply (proj2 (proj1 (X1_slave_constraint_exact
                           (answers false)
                           (mkCtx (mkInput T T FAIL S CMD_NONE) csHealthy
                                  (nsOf nodeA StateRunning))))).
    apply healthy_eligible.
  - apply (proj1 (proj2 (X1_slave_constraint_exact
                           (answers false)
                           (mkCtx (mkInput T T FAIL S CMD_NONE) csAlone
                                  (nsOf nodeA StateRunning))))).
    reflexivity.
Defined.

Lemma master_true_inv w ctx :
  fst (MasterAutoFailoverConstraint w ctx) = true ->
  (AutoFailover w = true
   \/ Command (ctxInput ctx) = CMD_FAILOVER_BEGIN_SIGNAL)
  /\ fst (SlaveAutoFailoverConstraint w ctx) = true.
Proof.
  intros H.
  assert (Hon : AutoFailover w = true
                \/ Command (ctxInput ctx) = CMD_FAILOVER_BEGIN_SIGNAL).
  { destruct (AutoFailover w) eqn:Hf; [left; reflexivity|right].
    apply InputField_eqb_eq.
    destruct (InputField_eqb (Command (ctxInput ctx))
                             CMD_FAILOVER_BEGIN_SIGNAL) eqn:E;
      [reflexivity|].
    unfold MasterAutoFailoverConstraint in H.
    rewrite Hf, E in H. discriminate. }
  split; [exact Hon|]. rewrite <- H.
  unfold MasterAutoFailoverConstraint, SlaveAutoFailoverConstraint.
  replace (negb (AutoFailover w)
           && negb (InputField_eqb (Command (ctxInput ctx))
                                   CMD_FAILOVER_BEGIN_SIGNAL))
    with false
    by (destruct Hon as [-> | ->]; [reflexivity|];
        destruct (AutoFailover w); reflexivity).
  destruct (FindReplicaSetByNode _ _); [|reflexivity].
  destruct (_ <? 2); [reflexivity|].
  destruct (siblingsRunning _ _ _); reflexivity.
Qed.

(** X2. The master constraint passes exactly when the auto-failover flag
    is on or the input carries the manual begin signal, and the topology
    is eligible. *)
Theorem X2_master_constraint_exact w ctx :
  fst (MasterAutoFailoverConstraint w ctx) = true
  <-> (AutoFailover w = true
       \/ Command (ctxInput ctx) = CMD_FAILOVER_BEGIN_SIGNAL)
      /\ Eligible (ctxClusterState ctx) (ctxNodeState ctx).
Proof.
  split.
  - intros H. destruct (master_true_inv w ctx H) as [Hon Hs].
    split; [exact Hon|]. apply (slave_true_eligible w ctx Hs).
  - intros [Hon He]. rewrite (master_passes w ctx Hon He). reflexivity.
Qed.

Lemma X2_master_constraint_exact_witness :
  fst (MasterAutoFailoverConstraint
         (answers false)
         (mkCtx (mkInput T T FAIL M CMD_FAILOVER_BEGIN_SIGNAL) csHealthy
                (nsOf nodeA StateRunning))) = true.
Proof.
  apply (proj2 (X2_master_constraint_exact
                  (answers false)
                  (mkCtx (mkInput T T FAIL M CMD_FAILOVER_BEGIN_SIGNAL)
                         csHealthy (nsOf nodeA StateRunning)))).
  split; [right; reflexivity|apply healthy_eligible].
Defined.

(** X3. The master constraint is never more permissive than the slave
    constraint: where it passes, the slave constraint passes too; and
    with the flag on, or with the manual begin signal, the two give the
    same verdict. *)
Theorem X3_master_constraint_within_slave w ctx :
  (fst (MasterAutoFailoverConstraint w ctx) = true ->
   fst (SlaveAutoFailoverConstraint w ctx) = true)
  /\ (AutoFailover w = true
      \/ Command (ctxInput ctx) = CMD_FAILOVER_BEGIN_SIGNAL ->
      fst (MasterAutoFailoverConstraint w ctx)
      = fst (SlaveAutoFailoverConstraint w ctx)).
Proof.
  split.
  - intros H. apply (master_true_inv w ctx H).
  - intros Hon.
    unfold MasterAutoFailoverConstraint, SlaveAutoFailoverConstraint.
    replace (negb (AutoFailover w)
             && negb (InputField_eqb (Command (ctxInput ctx))
                                     CMD_FAILOVER_BEGIN_SIGNAL))
      with false
      by (destruct Hon as [-> | ->]; [reflexivity|];
          destruct (AutoFailover w); reflexivity).
    destruct (FindReplicaSetByNode _ _); [|reflexivity].
    destruct (_ <? 2); [reflexivity|].
    destruct (siblingsRunning _ _ _); reflexivity.
Qed.

Lemma X3_master_constraint_within_slave_witness :
  fst (MasterAutoFailoverConstraint
         (answers true)
         (mkCtx (mkInput T T FAIL M CMD_NONE) csHealthy
                (nsOf nodeA StateRunning))) = true
  /\ fst (SlaveAutoFailoverConstraint
            (answers true)
            (mkCtx (mkInput T T FAIL M CMD_NONE) csHealthy
                   (nsOf nodeA StateRunning))) = true
  /\ fst (MasterAutoFailoverConstraint
            (answers true)
            (mkCtx (mkInput T T FAIL M CMD_NONE) csDegraded
                   (nsOf nodeA StateRunning)))
     = fst (SlaveAutoFailoverConstraint
              (answers true)
              (mkCtx (mkInput T T FAIL M CMD_NONE) csDegraded
                     (nsOf nodeA StateRunning))).
Proof.
  split; [reflexivity|]. split.
  - apply (proj1 (X3_master_constraint_within_slave
                    (answers true)
                    (mkCtx (mkInput T T FAIL M CMD_NONE) csHealthy
                           (nsOf nodeA StateRunning)))).
    reflexivity.
  - apply (proj2 (X3_master_constraint_within_slave
                    (answers true)
                    (mkCtx (mkInput T T FAIL M CMD_NONE) csDegraded
                           (nsOf nodeA StateRunning)))).
    left. reflexivity.
Defined.

(** A constraint writes its line exactly when it passes: each of the
    two auto-failover constraints returns either true with its one line
    or false with nothing, and the constraint of (d2) never writes. *)
Theorem constraints_log_only_on_pass w ctx :
  (SlaveAutoFailoverConstraint w ctx = (true, [Log "can failover slave"])
   \/ SlaveAutoFailoverConstraint w ctx = (false, []))
  /\ (MasterAutoFailoverConstraint w ctx
      = (true, [Log "Can do failover for master"])
      \/ MasterAutoFailoverConstraint w ctx = (false, []))
  /\ snd (OfflineMasterConstraint w ctx) = [].
Proof.
  unfold SlaveAutoFailoverConstraint, MasterAutoFailoverConstraint,
    OfflineMasterConstraint.
  split; [|split].
  - destruct (FindReplicaSetByNode _ _); [|right; reflexivity].
    destruct (_ <? 2); [right; reflexivity|].
    destruct (siblingsRunning _ _ _); [left|right]; reflexivity.
  - destruct (negb _ && _); [right; reflexivity|].
    destruct (FindReplicaSetByNode _ _); [|right; reflexivity].
    destruct (_ <? 2); [right; reflexivity|].
    destruct (siblingsRunning _ _ _); [left|right]; reflexivity.
  - destruct (_ && _); reflexivity.
Qed.




(* ================================================================ *)
(** ** Further properties of the handlers *)

Lemma disableReadLoop_log_iff w id l :
  (exists line, In (Log line) (disableReadLoop w id l))
  <-> exists n resp, In n l /\ DisableRead w (Addr n) id = Ok resp.
Proof.
  induction l as [|x l IH]; simpl.
  - split; [intros [_ []]|intros (_ & _ & [] & _)].
  - destruct (DisableRead w (Addr x) id) as [resp|err] eqn:Hx.
    + split; [|intros _; eexists; right; left; reflexivity].
      intros _. exists x, resp. auto.
    + split.
      * intros [line [H|H]]; [discriminate|].
        destruct (proj1 IH (ex_intro _ line H)) as (n & resp & Hn & Hr).
        exists n, resp. auto.
      * intros (n & resp & [<-|Hn] & Hr); [congruence|].
        destruct (proj2 IH (ex_intro _ n (ex_intro _ resp (conj Hn Hr))))
          as [line Hl].
        exists line. right. exact Hl.
Qed.

(** X5. The read-ban handler writes its line exactly when some store
    node, among those of the known node states, answers the ban of this
    node without an error. *)
Theorem X5_read_ban_logs_iff_acknowledged w ctx :
  (exists line, In (Log line) (SlaveFailoverHandler w ctx))
  <-> exists n resp,
      In n (AllNodeStates (ctxClusterState ctx))
      /\ DisableRead w (Addr n) (Id (ctxNodeState ctx)) = Ok resp.
Proof. apply disableReadLoop_log_iff. Qed.

Lemma disableReadLoop_shape w id l :
  exists k,
    k <= length l
    /\ filter isCall (disableReadLoop w id l)
       = map (banCall id) (firstn k l)
    /\ length (filter isLog (disableReadLoop w id l)) <= 1
    /\ filter isGo (disableReadLoop w id l) = [].
Proof.
  induction l as [|x l IH]; simpl.
  - exists 0. repeat split; auto.
  - destruct IH as (k & Hk & Hcalls & Hlogs & Hgo).
    destruct (DisableRead w (Addr x) id) as [resp|err]; simpl.
    + exists 1. repeat split; auto. lia.
    + exists (Datatypes.S k). simpl. rewrite Hcalls.
      repeat split; auto. lia.
Qed.

(** X6. Whatever the store nodes answer, the read-ban handler calls
    [DisableRead] for this node's id on an initial stretch of the known
    node states, in their order and each at most once; it writes at most
    one line and starts no goroutine. With no node state known it does
    nothing. *)
Theorem X6_read_ban_calls_a_prefix w ctx :
  let id := Id (ctxNodeState ctx) in
  let all := AllNodeStates (ctxClusterState ctx) in
  (exists k,
      k <= length all
      /\ filter isCall (SlaveFailoverHandler w ctx)
         = map (banCall id) (firstn k all)
      /\ length (filter isLog (SlaveFailoverHandler w ctx)) <= 1
      /\ filter isGo (SlaveFailoverHandler w ctx) = [])
  /\ (all = [] -> SlaveFailoverHandler w ctx = []).
Proof.
  intros id all. split.
  - apply disableReadLoop_shape.
  - intros Hall. unfold SlaveFailoverHandler. fold all. rewrite Hall.
    reflexivity.
Qed.

Lemma X6_read_ban_calls_a_prefix_witness :
  AllNodeStates (cluster [] [nodeA; nodeB] (Ok "b")) = []
  /\ SlaveFailoverHandler
       (answers false)
       (mkCtx (mkInput T T FAIL S CMD_NONE)
              (cluster [] [nodeA; nodeB] (Ok "b"))
              (nsOf nodeA StateRunning)) = [].
Proof.
  split; [reflexivity|].
  apply (proj2 (X6_read_ban_calls_a_prefix
                  (answers false)
                  (mkCtx (mkInput T T FAIL S CMD_NONE)
                         (cluster [] [nodeA; nodeB] (Ok "b"))
                         (nsOf nodeA StateRunning)))).
  reflexivity.
Defined.

(** X7. The promotion handler starts exactly one goroutine in every
    case, never both and never none, and calls no store node; it writes
    a line exactly when the query for a candidate fails. *)
Theorem X7_promotion_starts_one_goroutine w ctx :
  length (filter isGo (MasterFailoverHandler w ctx)) = 1
  /\ filter isCall (MasterFailoverHandler w ctx) = []
  /\ (filter isLog (MasterFailoverHandler w ctx) <> []
      <-> exists e,
          MaxReploffSlibing (ctxClusterState ctx)
                            (Id (ctxNodeState ctx)) true = Err e).
Proof.
  unfold MasterFailoverHandler.
  destruct (MaxReploffSlibing _ _ _) as [m|e]; simpl.
  - repeat split; auto.
    + intros H. contradiction.
    + intros [e He]. discriminate.
  - repeat split; auto.
    + intros _. exists e. reflexivity.
    + intros _. discriminate.
Qed.

(* ================================================================ *)
(** ** Further properties of the table *)

Ltac each_transition Hin :=
  rewrite model_table in Hin;
  repeat (destruct Hin as [<-|Hin]); try (exfalso; exact Hin).

(** X8. In the registered table a transition carries a handler exactly
    when it leads to [WAIT_FAILOVER_END]; every such transition is
    guarded by a constraint and asks for a failed node of a definite
    role, and no transition leads back to the state it leaves. *)
Theorem X8_handlers_guard_the_way_to_failover_end t :
  In t (fsm.TransTable RedisNodeStateModel) ->
  (fsm.To t = StateWaitFailoverEnd <-> fsm.Apply t <> None)
  /\ (fsm.Apply t <> None ->
      fsm.Constraint t <> None
      /\ Health (fsm.Input t) = FAIL
      /\ (Role (fsm.Input t) = M \/ Role (fsm.Input t) = S))
  /\ fsm.From t <> fsm.To t.
Proof.
  intros Hin. each_transition Hin.
  all: split;
    [split; intros H; try reflexivity; try discriminate;
     try (exfalso; apply H; reflexivity)
    |split; [|discriminate]].
  all: intros H; try (exfalso; apply H; reflexivity).
  all: split; [discriminate|split; [reflexivity|auto]].
Qed.

Lemma X8_handlers_guard_the_way_to_failover_end_witness :
  In b1 (fsm.TransTable RedisNodeStateModel)
  /\ (fsm.To b1 = StateWaitFailoverEnd <-> fsm.Apply b1 <> None).
Proof.
  assert (Hin : In b1 (fsm.TransTable RedisNodeStateModel))
    by (simpl; tauto).
  split; [exact Hin|].
  apply (X8_handlers_guard_the_way_to_failover_end b1 Hin).
Defined.

(** The registrations of [init] are well formed: the four state
    names are pairwise distinct, every transition leaves and reaches a
    registered state, and so no registration is refused. *)
Theorem registration_is_well_formed :
  map fsm.Name (fsm.States RedisNodeStateModel) = stateNames
  /\ NoDup stateNames
  /\ (forall t, In t (fsm.TransTable RedisNodeStateModel) ->
                In (fsm.From t) stateNames /\ In (fsm.To t) stateNames)
  /\ init = Some RedisNodeStateModel.
Proof.
  split; [reflexivity|]. split.
  - repeat constructor; simpl; intuition discriminate.
  - split; [|reflexivity].
    intros t Hin. each_transition Hin.
    all: split; simpl; tauto.
Qed.

(* ================================================================ *)
(** ** Further properties of a step *)

Lemma passing_fst_In (ts : list Transition) (i : Frame)
      (t : Transition) :
  In t (fst (fsm.passing ts i))
  <-> In t ts /\ fst (fsm.check t i) = true.
Proof.
  induction ts as [|x ts IH].
  - simpl. tauto.
  - rewrite passing_cons. cbn [fst].
    destruct (fst (fsm.check x i)) eqn:E; cbn [In]; rewrite IH.
    + split; [intros [<-|[H1 H2]]; auto|tauto].
    + split; [tauto|].
      intros [[<-|H1] H2]; [congruence|auto].
Qed.

Lemma highest_In (ts : list Transition) t :
  fsm.highest ts = Some t -> In t ts.
Proof.
  revert t. induction ts as [|x ts IH]; simpl; [discriminate|].
  intros t. destruct (fsm.highest ts) as [u|].
  - destruct (fsm.Priority u >? fsm.Priority x)%Z; intros [= <-]; auto.
  - intros [= <-]. auto.
Qed.

Lemma highest_None (ts : list Transition) :
  fsm.highest ts = None -> ts = [].
Proof.
  destruct ts as [|x ts]; simpl; [reflexivity|].
  destruct (fsm.highest ts) as [u|]; [|discriminate].
  destruct (fsm.Priority u >? fsm.Priority x)%Z; discriminate.
Qed.

Lemma highest_max (ts : list Transition) t :
  fsm.highest ts = Some t ->
  forall u, In u ts -> (fsm.Priority u <= fsm.Priority t)%Z.
Proof.
  revert t. induction ts as [|x ts IH]; simpl; [discriminate|].
  intros t. destruct (fsm.highest ts) as [v|] eqn:Hv.
  - destruct (Z.gtb_spec (fsm.Priority v) (fsm.Priority x)) as [Hgt|Hle];
      intros [= <-] u [<-|Hu].
    + lia.
    + apply (IH v eq_refl u Hu).
    + lia.
    + pose proof (IH v eq_refl u Hu). lia.
  - intros [= <-] u [<-|Hu]; [lia|].
    apply highest_None in Hv. subst ts. contradiction.
Qed.

Lemma matching_In cur input t :
  In t (fsm.matching Eq RedisNodeStateModel cur input)
  <-> In t (fsm.TransTable RedisNodeStateModel)
      /\ fsm.From t = cur /\ accepts input t = true.
Proof.
  unfold fsm.matching. rewrite filter_In, andb_true_iff, String.eqb_eq.
  reflexivity.
Qed.

Lemma resolve_highest w cs ns input :
  Resolve w cs ns input
  = fsm.highest
      (fst (fsm.passing
              (fsm.matching Eq RedisNodeStateModel (CurrentState ns) input)
              (w, mkCtx input cs ns))).
Proof.
  unfold Resolve, fsm.Next, mkCtx.
  destruct (fsm.passing _ _). reflexivity.
Qed.

Lemma resolve_some w cs ns input t :
  Resolve w cs ns input = Some t ->
  offered w cs ns input t
  /\ forall u, offered w cs ns input u ->
                (fsm.Priority u <= fsm.Priority t)%Z.
Proof.
  rewrite resolve_highest. intros H. split.
  - apply highest_In in H. apply passing_fst_In in H as [Hm Hc].
    apply matching_In in Hm. unfold offered. tauto.
  - intros u (Hin & Hfrom & Hacc & Hc).
    apply (highest_max _ _ H). apply passing_fst_In.
    split; [|exact Hc]. apply matching_In. auto.
Qed.

Lemma resolve_none w cs ns input :
  Resolve w cs ns input = None ->
  forall u, ~ offered w cs ns input u.
Proof.
  rewrite resolve_highest. intros H u (Hin & Hfrom & Hacc & Hc).
  apply highest_None in H.
  assert (Hu : In u (fst (fsm.passing
                            (fsm.matching Eq RedisNodeStateModel
                                          (CurrentState ns) input)
                            (w, mkCtx input cs ns)))).
  { apply passing_fst_In. split; [|exact Hc]. apply matching_In. auto. }
  rewrite H in Hu. contradiction.
Qed.

Lemma advance_resolve w cs ns input :
  fsm.state (Advance w cs ns input)
  = match Resolve w cs ns input with
    | Some t => fsm.To t
    | None => CurrentState ns
    end
  /\ fsm.fired (Advance w cs ns input)
     = match Resolve w cs ns input with
       | Some _ => true
       | None => false
       end.
Proof.
  unfold Advance, Resolve, fsm.Advance.
  destruct (fsm.Next _ _ _ _ _) as [[t|] out]; split; reflexivity.
Qed.

Lemma table_targets t :
  In t (fsm.TransTable RedisNodeStateModel) -> In (fsm.To t) stateNames.
Proof. intros Hin. each_transition Hin. all: simpl; tauto. Qed.

(** X9. A call of [Advance] either finds no transition on offer, and
    then leaves the node where it is with nothing fired, or fires one
    transition that is on offer: a registered one that leaves the current
    state, whose pattern accepts the input and whose constraint passes.
    No transition on offer has a higher priority than the one fired, and
    the state reached is one of the four registered states. *)
Theorem X9_step_follows_an_offered_transition w cs ns input :
  (Resolve w cs ns input = None
   /\ (forall u, ~ offered w cs ns input u)
   /\ fsm.state (Advance w cs ns input) = CurrentState ns
   /\ fsm.fired (Advance w cs ns input) = false)
  \/ (exists t,
        Resolve w cs ns input = Some t
        /\ offered w cs ns input t
        /\ (forall u, offered w cs ns input u ->
                      (fsm.Priority u <= fsm.Priority t)%Z)
        /\ fsm.state (Advance w cs ns input) = fsm.To t
        /\ fsm.fired (Advance w cs ns input) = true
        /\ In (fsm.state (Advance w cs ns input)) stateNames).
Proof.
  destruct (advance_resolve w cs ns input) as [Hs Hf].
  destruct (Resolve w cs ns input) as [t|] eqn:Hres.
  - right. exists t.
    destruct (resolve_some w cs ns input t Hres) as [Hoff Hmax].
    split; [reflexivity|]. split; [exact Hoff|]. split; [exact Hmax|].
    split; [exact Hs|]. split; [exact Hf|].
    rewrite Hs. apply table_targets. apply Hoff.
  - left. split; [reflexivity|]. split; [|split; assumption].
    apply resolve_none. exact Hres.
Qed.

Lemma fieldEq_true p i : fieldEq p i = true <-> p = ANY \/ p = i.
Proof.
  destruct p, i; simpl; split; intros H; auto; try discriminate;
    destruct H; discriminate.
Qed.

Lemma accepts_fields input (t : Transition) :
  accepts input t = true
  <-> (ReadEnabled (fsm.Input t) = ANY
       \/ ReadEnabled (fsm.Input t) = ReadEnabled input)
      /\ (WriteEnabled (fsm.Input t) = ANY
          \/ WriteEnabled (fsm.Input t) = WriteEnabled input)
      /\ (Health (fsm.Input t) = ANY
          \/ Health (fsm.Input t) = Health input)
      /\ (Role (fsm.Input t) = ANY \/ Role (fsm.Input t) = Role input)
      /\ (Command (fsm.Input t) = ANY
          \/ Command (fsm.Input t) = Command input).
Proof.
  unfold accepts, Eq. rewrite !andb_true_iff, !fieldEq_true. tauto.
Qed.

(** X10. A node that is reported [FINE] is never failed over: whatever
    the state, the cluster and the other fields of the input, the
    transition that fires, if any, has no handler and leads to [RUNNING]
    or to [OFFLINE]; the node is in [WAIT_FAILOVER_END] afterwards only
    if it was there before. *)
Theorem X10_fine_node_is_never_failed_over w cs ns input :
  Health input = FINE ->
  (forall t, Resolve w cs ns input = Some t ->
             fsm.Apply t = None
             /\ (fsm.To t = StateRunning \/ fsm.To t = StateOffline))
  /\ (fsm.state (Advance w cs ns input) = StateWaitFailoverEnd ->
      CurrentState ns = StateWaitFailoverEnd).
Proof.
  intros Hh.
  assert (Hfine : forall t, Resolve w cs ns input = Some t ->
                            fsm.Apply t = None
                            /\ (fsm.To t = StateRunning
                                \/ fsm.To t = StateOffline)).
  { intros t Hres.
    destruct (resolve_some w cs ns input t Hres)
      as [(Hin & _ & Hacc & _) _].
    apply accepts_fields in Hacc. destruct Hacc as (_ & _ & Hacc & _).
    rewrite Hh in Hacc.
    each_transition Hin;
      try (destruct Hacc as [Hacc|Hacc]; discriminate Hacc).
    all: split; [reflexivity|auto]. }
  split; [exact Hfine|].
  destruct (advance_resolve w cs ns input) as [Hs _]. rewrite Hs.
  destruct (Resolve w cs ns input) as [t|]; [|auto].
  destruct (Hfine t eq_refl) as [_ [Ht|Ht]]; rewrite Ht; discriminate.
Qed.

Lemma X10_fine_node_is_never_failed_over_witness :
  Health (mkInput F F FINE M CMD_FAILOVER_BEGIN_SIGNAL) = FINE
  /\ (fsm.state (Advance (answers true) csHealthy
                         (nsOf nodeA StateWaitFailoverEnd)
                         (mkInput F F FINE M CMD_FAILOVER_BEGIN_SIGNAL))
      = StateWaitFailoverEnd ->
      CurrentState (nsOf nodeA StateWaitFailoverEnd)
      = StateWaitFailoverEnd).
Proof.
  split; [reflexivity|].
  apply (X10_fine_node_is_never_failed_over
           (answers true) csHealthy (nsOf nodeA StateWaitFailoverEnd)
           (mkInput F F FINE M CMD_FAILOVER_BEGIN_SIGNAL) eq_refl).
Defined.





(** X13. A node in [WAIT_FAILOVER_BEGIN] that is reported [FINE] goes
    back to [RUNNING], whatever the other fields of the input are, and no
    constraint is asked and no handler runs. *)
Theorem X13_recovered_node_runs_again w cs ns input :
  CurrentState ns = StateWaitFailoverBegin ->
  Health input = FINE ->
  Advance w cs ns input
  = {| fsm.state := StateRunning;
       fsm.fired := true;
       fsm.trace := [Log "Leave WAIT_FAILOVER_BEGIN state";
                     Log "Enter RUNNING state"] |}.
Proof.
  intros Hcur Hh. destruct input as [r wr h ro c]. simpl in Hh. subst h.
  destruct r, wr; resolve Hcur matching_begin; reflexivity.
Qed.

Lemma X13_recovered_node_runs_again_witness :
  CurrentState (nsOf nodeB StateWaitFailoverBegin) = StateWaitFailoverBegin
  /\ Health (mkInput T T FINE S CMD_NONE) = FINE
  /\ Advance (answers true) csHealthy (nsOf nodeB StateWaitFailoverBegin)
             (mkInput T T FINE S CMD_NONE)
     = {| fsm.state := StateRunning;
          fsm.fired := true;
          fsm.trace := [Log "Leave WAIT_FAILOVER_BEGIN state";
                        Log "Enter RUNNING state"] |}.
Proof.
  split; [reflexivity|]. split; [reflexivity|].
  apply (X13_recovered_node_runs_again
           (answers true) csHealthy (nsOf nodeB StateWaitFailoverBegin)
           (mkInput T T FINE S CMD_NONE) eq_refl eq_refl).
Defined.

Lemma offered_from_running w cs ns input t :
  CurrentState ns = StateRunning ->
  offered w cs ns input t ->
  t = a0 \/ t = a1 \/ t = a2 \/ t = a3 \/ t = a4.
Proof.
  intros Hcur (Hin & Hfrom & _). rewrite Hcur in Hfrom.
  each_transition Hin; try discriminate Hfrom; tauto.
Qed.

(** X14. A running node that is reported failed while its read flag or
    its write flag is on never stays in [RUNNING]: a transition fires
    and takes it to [WAIT_FAILOVER_BEGIN] or to [WAIT_FAILOVER_END]. It
    reaches [WAIT_FAILOVER_END] exactly when it is a slave with reads on
    whose constraint passes, or a master with reads and writes on whose
    constraint passes. *)
Theorem X14_failed_unbanned_node_leaves_running w cs ns input :
  CurrentState ns = StateRunning ->
  Health input = FAIL ->
  ReadEnabled input = T \/ WriteEnabled input = T ->
  fsm.fired (Advance w cs ns input) = true
  /\ (fsm.state (Advance w cs ns input) = StateWaitFailoverBegin
      \/ fsm.state (Advance w cs ns input) = StateWaitFailoverEnd)
  /\ (fsm.state (Advance w cs ns input) = StateWaitFailoverEnd
      <-> (ReadEnabled input = T /\ Role input = S
           /\ fst (SlaveAutoFailoverConstraint w (mkCtx input cs ns))
              = true)
          \/ (ReadEnabled input = T /\ WriteEnabled input = T
              /\ Role input = M
              /\ fst (MasterAutoFailoverConstraint w (mkCtx input cs ns))
                 = true)).
Proof.
  intros Hcur Hh Hon.
  assert (H0 : accepts input a0 = true -> False).
  { rewrite accepts_fields. simpl. rewrite Hh.
    intuition (try discriminate; congruence). }
  assert (H3 : accepts input a3 = true
               <-> ReadEnabled input = T /\ Role input = S).
  { rewrite accepts_fields. simpl. rewrite Hh.
    intuition (try discriminate; congruence). }
  assert (H4 : accepts input a4 = true
               <-> ReadEnabled input = T /\ WriteEnabled input = T
                   /\ Role input = M).
  { rewrite accepts_fields. simpl. rewrite Hh.
    intuition (try discriminate; congruence). }
  assert (Hfall : offered w cs ns input a1 \/ offered w cs ns input a2).
  { destruct Hon as [Hr|Hw]; [left|right].
    - split; [simpl; tauto|]. split; [symmetry; exact Hcur|].
      split; [|reflexivity].
      apply accepts_fields. simpl. rewrite Hh, Hr. tauto.
    - split; [simpl; tauto|]. split; [symmetry; exact Hcur|].
      split; [|reflexivity].
      apply accepts_fields. simpl. rewrite Hh, Hw. tauto. }
  assert (Hoff3 : ReadEnabled input = T -> Role input = S ->
                  fst (SlaveAutoFailoverConstraint w (mkCtx input cs ns))
                  = true ->
                  offered w cs ns input a3).
  { intros Hr Hro Hc. split; [simpl; tauto|].
    split; [symmetry; exact Hcur|]. split; [apply H3; auto|exact Hc]. }
  assert (Hoff4 : ReadEnabled input = T -> WriteEnabled input = T ->
                  Role input = M ->
                  fst (MasterAutoFailoverConstraint w (mkCtx input cs ns))
                  = true ->
                  offered w cs ns input a4).
  { intros Hr Hw Hro Hc. split; [simpl; tauto|].
    split; [symmetry; exact Hcur|]. split; [apply H4; auto|exact Hc]. }
  destruct (advance_resolve w cs ns input) as [Hs Hf].
  destruct (Resolve w cs ns input) as [t|] eqn:Hres.
  2:{ exfalso. destruct Hfall as [Ho|Ho];
        apply (resolve_none w cs ns input Hres _ Ho). }
  destruct (resolve_some w cs ns input t Hres) as [Hoff Hmax].
  rewrite Hs, Hf. split; [reflexivity|].
  destruct (offered_from_running w cs ns input t Hcur Hoff)
    as [-> | [-> | [-> | [-> | ->]]]].
  - exfalso. apply H0. apply Hoff.
  - split; [left; reflexivity|]. split; [discriminate|].
    intros [(Hr & Hro & Hc)|(Hr & Hw & Hro & Hc)].
    + pose proof (Hmax a3 (Hoff3 Hr Hro Hc)) as Hp. simpl in Hp. lia.
    + pose proof (Hmax a4 (Hoff4 Hr Hw Hro Hc)) as Hp. simpl in Hp. lia.
  - split; [left; reflexivity|]. split; [discriminate|].
    intros [(Hr & Hro & Hc)|(Hr & Hw & Hro & Hc)].
    + pose proof (Hmax a3 (Hoff3 Hr Hro Hc)) as Hp. simpl in Hp. lia.
    + pose proof (Hmax a4 (Hoff4 Hr Hw Hro Hc)) as Hp. simpl in Hp. lia.
  - split; [right; reflexivity|]. split; [|reflexivity].
    intros _. left. destruct Hoff as (_ & _ & Hacc & Hc).
    apply H3 in Hacc. destruct Hacc as [Hr Hro]. auto.
  - split; [right; reflexivity|]. split; [|reflexivity].
    intros _. right. destruct Hoff as (_ & _ & Hacc & Hc).
    apply H4 in Hacc. destruct Hacc as (Hr & Hw & Hro). auto.
Qed.

Lemma X14_failed_unbanned_node_leaves_running_witness :
  CurrentState (nsOf nodeA StateRunning) = StateRunning
  /\ Health (mkInput F T FAIL M CMD_NONE) = FAIL
  /\ fsm.fired (Advance (answers true) csHealthy (nsOf nodeA StateRunning)
                        (mkInput F T FAIL M CMD_NONE)) = true.
Proof.
  split; [reflexivity|]. split; [reflexivity|].
  apply (X14_failed_unbanned_node_leaves_running
           (answers true) csHealthy (nsOf nodeA StateRunning)
           (mkInput F T FAIL M CMD_NONE) eq_refl eq_refl).
  right. reflexivity.
Defined.



(** X16. A running node that is banned on both sides goes to [OFFLINE]
    whatever its health, role and the command are: a failed master
    among them, for which no constraint is asked and no promotion is
    started. *)
Theorem X16_banned_running_node_goes_offline w cs ns input :
  CurrentState ns = StateRunning ->
  ReadEnabled input = F ->
  WriteEnabled input = F ->
  Resolve w cs ns input = Some a0
  /\ Advance w cs ns input
     = {| fsm.state := StateOffline;
          fsm.fired := true;
          fsm.trace := [Log "Leave RUNNING state";
                        Log "Enter OFFLINE state"] |}.
Proof.
  intros Hcur Hr Hw. destruct input as [r wr h ro c]. simpl in Hr, Hw.
  subst r wr.
  split; resolve Hcur matching_running; reflexivity.
Qed.

Lemma X16_banned_running_node_goes_offline_witness :
  CurrentState (nsOf nodeA StateRunning) = StateRunning
  /\ Advance (answers true) csHealthy (nsOf nodeA StateRunning)
             (mkInput F F FAIL M CMD_FAILOVER_BEGIN_SIGNAL)
     = {| fsm.state := StateOffline;
          fsm.fired := true;
          fsm.trace := [Log "Leave RUNNING state";
                        Log "Enter OFFLINE state"] |}.
Proof.
  split; [reflexivity|].
  apply (X16_banned_running_node_goes_offline
           (answers true) csHealthy (nsOf nodeA StateRunning)
           (mkInput F F FAIL M CMD_FAILOVER_BEGIN_SIGNAL)
           eq_refl eq_refl eq_refl).
Defined.

(** X17. Whenever a transition fires, the last two things heard are the
    leave hook of the state that is left and then the enter hook of the
    state that is reached, each once and each naming its own state;
    constraints and handler come before them. *)
Theorem X17_hooks_close_every_firing w cs ns input :
  fsm.fired (Advance w cs ns input) = true ->
  exists before,
    fsm.trace (Advance w cs ns input)
    = before
      ++ [Log ("Leave " ++ CurrentState ns ++ " state")%string;
          Log ("Enter " ++ fsm.state (Advance w cs ns input)
               ++ " state")%string]
    /\ exists t, Resolve w cs ns input = Some t
                 /\ before
                    = snd (fsm.Next Eq RedisNodeStateModel (CurrentState ns)
                                    (w, mkCtx input cs ns) input)
                      ++ fsm.apply t (w, mkCtx input cs ns).
Proof.
  intros Hf.
  destruct (advance_resolve w cs ns input) as [_ Hf'].
  destruct (Resolve w cs ns input) as [t|] eqn:Hres;
    [|rewrite Hf' in Hf; discriminate].
  destruct (resolve_some w cs ns input t Hres)
    as [(Hin & Hfrom & _) _].
  unfold Resolve in Hres. unfold Advance, fsm.Advance, mkCtx in *.
  destruct (fsm.Next _ _ _ _ _) as [[u|] out]; simpl in Hres;
    [|discriminate].
  injection Hres as ->. cbn [fsm.state fsm.trace snd].
  exists (out ++ fsm.apply t
                   (w, {| ctxInput := input; ctxClusterState := cs;
                          ctxNodeState := ns |})).
  split; [|exists t; split; reflexivity].
  rewrite <- Hfrom, <- app_assoc. f_equal. f_equal.
  clear Hfrom. each_transition Hin; reflexivity.
Qed.

Lemma X17_hooks_close_every_firing_witness :
  fsm.fired (Advance (answers true) csHealthy (nsOf nodeA StateRunning)
                     (mkInput T T FAIL M CMD_NONE)) = true
  /\ exists before,
      fsm.trace (Advance (answers true) csHealthy (nsOf nodeA StateRunning)
                         (mkInput T T FAIL M CMD_NONE))
      = before ++ [Log "Leave RUNNING state";
                   Log "Enter WAIT_FAILOVER_END state"].
Proof.
  split; [reflexivity|].
  destruct (X17_hooks_close_every_firing
              (answers true) csHealthy (nsOf nodeA StateRunning)
              (mkInput T T FAIL M CMD_NONE) eq_refl)
    as (before & Htrace & _).
  exists before. exact Htrace.
Defined.

Lemma offered_from_begin w cs ns input t :
  CurrentState ns = StateWaitFailoverBegin ->
  offered w cs ns input t ->
  t = b0 \/ t = b1 \/ t = b2 \/ t = b3.
Proof.
  intros Hcur (Hin & Hfrom & _). rewrite Hcur in Hfrom.
  each_transition Hin; try discriminate Hfrom; tauto.
Qed.

(** X18. A node waiting in [WAIT_FAILOVER_BEGIN] that is still reported
    failed, other than a slave banned on both sides, moves on to
    [WAIT_FAILOVER_END] exactly when the constraint of its role passes;
    as long as it rejects, the node stays where it is and nothing fires.
    It never goes back to [RUNNING] while it is failed. *)
Theorem X18_waiting_node_moves_on_when_constraint_passes w cs ns input :
  CurrentState ns = StateWaitFailoverBegin ->
  Health input = FAIL ->
  ~ (ReadEnabled input = F /\ WriteEnabled input = F /\ Role input = S) ->
  (fsm.state (Advance w cs ns input) = StateWaitFailoverEnd
   <-> (Role input = M
        /\ fst (MasterAutoFailoverConstraint w (mkCtx input cs ns)) = true)
       \/ (Role input = S
           /\ fst (SlaveAutoFailoverConstraint w (mkCtx input cs ns))
              = true))
  /\ (fsm.state (Advance w cs ns input) <> StateWaitFailoverEnd ->
      fsm.state (Advance w cs ns input) = StateWaitFailoverBegin
      /\ fsm.fired (Advance w cs ns input) = false).
Proof.
  intros Hcur Hh Hban.
  assert (H0 : accepts input b0 = true -> False).
  { rewrite accepts_fields. simpl. rewrite Hh.
    intros (_ & _ & [Hf|Hf] & _); discriminate. }
  assert (H1 : accepts input b1 = true <-> Role input = M).
  { rewrite accepts_fields. simpl. rewrite Hh.
    intuition (try discriminate; congruence). }
  assert (H2 : accepts input b2 = true <-> Role input = S).
  { rewrite accepts_fields. simpl. rewrite Hh.
    intuition (try discriminate; congruence). }
  assert (H3 : accepts input b3 = true -> False).
  { rewrite accepts_fields. simpl.
    intros ([Hr|Hr] & [Hw|Hw] & _ & [Hro|Hro] & _); try discriminate.
    apply Hban. repeat split; congruence. }
  assert (Hoff1 : Role input = M ->
                  fst (MasterAutoFailoverConstraint w (mkCtx input cs ns))
                  = true ->
                  offered w cs ns input b1).
  { intros Hro Hc. split; [simpl; tauto|].
    split; [symmetry; exact Hcur|]. split; [apply H1; auto|exact Hc]. }
  assert (Hoff2 : Role input = S ->
                  fst (SlaveAutoFailoverConstraint w (mkCtx input cs ns))
                  = true ->
                  offered w cs ns input b2).
  { intros Hro Hc. split; [simpl; tauto|].
    split; [symmetry; exact Hcur|]. split; [apply H2; auto|exact Hc]. }
  destruct (advance_resolve w cs ns input) as [Hs Hf].
  destruct (Resolve w cs ns input) as [t|] eqn:Hres.
  - destruct (resolve_some w cs ns input t Hres) as [Hoff _].
    rewrite Hs, Hf.
    destruct (offered_from_begin w cs ns input t Hcur Hoff)
      as [-> | [-> | [-> | ->]]].
    + exfalso. apply H0. apply Hoff.
    + split; [|intros H; exfalso; apply H; reflexivity].
      split; [|reflexivity].
      intros _. left. destruct Hoff as (_ & _ & Hacc & Hc).
      apply H1 in Hacc. auto.
    + split; [|intros H; exfalso; apply H; reflexivity].
      split; [|reflexivity].
      intros _. right. destruct Hoff as (_ & _ & Hacc & Hc).
      apply H2 in Hacc. auto.
    + exfalso. apply H3. apply Hoff.
  - rewrite Hs, Hf, Hcur. split; [|auto].
    split; [discriminate|].
    intros [(Hro & Hc)|(Hro & Hc)]; exfalso.
    + apply (resolve_none w cs ns input Hres _ (Hoff1 Hro Hc)).
    + apply (resolve_none w cs ns input Hres _ (Hoff2 Hro Hc)).
Qed.

Lemma X18_waiting_node_moves_on_when_constraint_passes_witness :
  CurrentState (nsOf nodeA StateWaitFailoverBegin) = StateWaitFailoverBegin
  /\ Health (mkInput T T FAIL M CMD_NONE) = FAIL
  /\ (fsm.state (Advance (answers false) csHealthy
                         (nsOf nodeA StateWaitFailoverBegin)
                         (mkInput T T FAIL M CMD_NONE))
      = StateWaitFailoverBegin
      /\ fsm.fired (Advance (answers false) csHealthy
                            (nsOf nodeA StateWaitFailoverBegin)
                            (mkInput T T FAIL M CMD_NONE)) = false).
Proof.
  split; [reflexivity|]. split; [reflexivity|].
  apply (X18_waiting_node_moves_on_when_constraint_passes
           (answers false) csHealthy (nsOf nodeA StateWaitFailoverBegin)
           (mkInput T T FAIL M CMD_NONE) eq_refl eq_refl).
  - intros (H & _). discriminate.
  - vm_compute. discriminate.
Defined.

Lemma offered_from_offline w cs ns input t :
  CurrentState ns = StateOffline ->
  offered w cs ns input t ->
  t = d0 \/ t = d1 \/ t = d2.
Proof.
  intros Hcur (Hin & Hfrom & _). rewrite Hcur in Hfrom.
  each_transition Hin; try discriminate Hfrom; tauto.
Qed.

(** X19. A node in [OFFLINE] that is banned on both sides leaves it only
    as a failed master that has not been dealt with: it goes to
    [WAIT_FAILOVER_BEGIN] exactly when the input says failed and master
    and the node is not both marked failed and without ranges; otherwise
    it stays in [OFFLINE] and nothing fires. *)
Theorem X19_offline_master_waits_for_failover w cs ns input :
  CurrentState ns = StateOffline ->
  ReadEnabled input = F ->
  WriteEnabled input = F ->
  (fsm.state (Advance w cs ns input) = StateWaitFailoverBegin
   <-> Health input = FAIL /\ Role input = M
       /\ ~ (topo.Fail (node ns) = true /\ topo.Ranges (node ns) = []))
  /\ (fsm.state (Advance w cs ns input) <> StateWaitFailoverBegin ->
      fsm.state (Advance w cs ns input) = StateOffline
      /\ fsm.fired (Advance w cs ns input) = false).
Proof.
  intros Hcur Hr Hw.
  assert (H0 : accepts input d0 = true -> False).
  { rewrite accepts_fields. simpl. rewrite Hr.
    intros ([Hf|Hf] & _); discriminate. }
  assert (H1 : accepts input d1 = true -> False).
  { rewrite accepts_fields. simpl. rewrite Hw.
    intros (_ & [Hf|Hf] & _); discriminate. }
  assert (H2 : accepts input d2 = true
               <-> Health input = FAIL /\ Role input = M).
  { rewrite accepts_fields. simpl. rewrite Hr, Hw.
    intuition (try discriminate; congruence). }
  assert (Hc : fst (fsm.check d2 (w, mkCtx input cs ns)) = true
               <-> ~ (topo.Fail (node ns) = true
                      /\ topo.Ranges (node ns) = [])).
  { cbv [fsm.check fsm.Constraint d2 trans cast fst snd mkCtx
         OfflineMasterConstraint ctxNodeState].
    destruct (topo.Fail (node ns)); simpl.
    - destruct (topo.Ranges (node ns)); simpl.
      + split; [discriminate|intros H; exfalso; apply H; auto].
      + split; [intros _ [_ H]; discriminate|reflexivity].
    - split; [intros _ [H _]; discriminate|reflexivity]. }
  destruct (advance_resolve w cs ns input) as [Hs Hf].
  destruct (Resolve w cs ns input) as [t|] eqn:Hres.
  - destruct (resolve_some w cs ns input t Hres) as [Hoff _].
    rewrite Hs, Hf.
    destruct (offered_from_offline w cs ns input t Hcur Hoff)
      as [-> | [-> | ->]].
    + exfalso. apply H0. apply Hoff.
    + exfalso. apply H1. apply Hoff.
    + split; [|intros H; exfalso; apply H; reflexivity].
      split; [|reflexivity].
      intros _. destruct Hoff as (_ & _ & Hacc & Hchk).
      apply H2 in Hacc. apply Hc in Hchk. tauto.
  - rewrite Hs, Hf, Hcur. split; [|auto].
    split; [discriminate|].
    intros (Hh & Hro & Hnot). exfalso.
    apply (resolve_none w cs ns input Hres d2).
    split; [simpl; tauto|]. split; [symmetry; exact Hcur|].
    split; [apply H2; auto|apply Hc; exact Hnot].
Qed.

Lemma X19_offline_master_waits_for_failover_witness :
  CurrentState (nsOf nodeA StateOffline) = StateOffline
  /\ fsm.state (Advance (answers true) csHealthy (nsOf nodeA StateOffline)
                        (mkInput F F FAIL M CMD_NONE))
     = StateWaitFailoverBegin.
Proof.
  split; [reflexivity|].
  apply (X19_offline_master_waits_for_failover
           (answers true) csHealthy (nsOf nodeA StateOffline)
           (mkInput F F FAIL M CMD_NONE) eq_refl eq_refl eq_refl).
  split; [reflexivity|]. split; [reflexivity|].
  intros [_ H]. discriminate.
Defined.

End state.

(* ================================================================== *)
(** ** Properties of the [failover] command *)

Module command_facts.
Import command.

(** X20. The command sends a request exactly when it is given exactly
    one argument and that argument resolves to a node id. The request
    is then the only one, and goes to the set-as-master path of the
    leader with the resolved id, a timeout of five seconds and the
    configured user, role and token. With no argument, with more than
    one, or with an argument that does not resolve, nothing is sent. *)
Theorem X20_failover_request_needs_one_resolved_id e args :
  ((exists o, In o (failoverAction e args) /\ isPost o = true)
   <-> exists a id, args = [a] /\ GetId e a = Ok id)
  /\ (forall a id,
        args = [a] -> GetId e a = Ok id ->
        filter isPost (failoverAction e args)
        = [Post ("http://" ++ GetLeaderAddr e ++ NodeSetAsMasterPath e)
                id 5000000000 (User e) (Role e) (Token e)])
  /\ (length args <> 1 ->
      failoverAction e args = [Println (ErrInvalidParameter e)])
  /\ (forall a err,
        args = [a] -> GetId e a = Err err ->
        failoverAction e args = [Println err]).
Proof.
  unfold failoverAction.
  destruct args as [|a [|b rest]]; simpl.
  - split; [|split; [|split]].
    + split; [intros (o & [<-|[]] & Ho); discriminate|].
      intros (a & id & Ha & _). discriminate.
    + intros a id Ha. discriminate.
    + reflexivity.
    + intros a err Ha. discriminate.
  - split; [|split; [|split]].
    + split.
      * intros (o & Hin & Ho).
        destruct (GetId e a) as [id|err] eqn:Hid.
        -- exists a, id. auto.
        -- destruct Hin as [<-|[]]. discriminate.
      * intros (a' & id & [= <-] & Hid). rewrite Hid.
        eexists. split; [left; reflexivity|reflexivity].
    + intros a' id [= <-] Hid. rewrite Hid.
      destruct (HttpPostExtra e _ _ _ _ _ _); reflexivity.
    + intros H. exfalso. apply H. reflexivity.
    + intros a' err [= <-] Hid. rewrite Hid. reflexivity.
  - split; [|split; [|split]].
    + split; [intros (o & [<-|[]] & Ho); discriminate|].
      intros (a' & id & Ha & _). discriminate.
    + intros a' id Ha. discriminate.
    + reflexivity.
    + intros a' err Ha. discriminate.
Qed.

Lemma X20_failover_request_needs_one_resolved_id_witness :
  filter isPost (failoverAction sampleEnv ["redis-1"])
  = [Post "http://10.0.0.1:6000/node/setAsMaster" "n1" 5000000000
          "op" "admin" "secret"]
  /\ failoverAction sampleEnv [] = [Println "invalid parameter"]
  /\ failoverAction sampleEnv ["redis-9"] = [Println "unknown node"].
Proof.
  split; [|split].
  - apply (proj1 (proj2 (X20_failover_request_needs_one_resolved_id
                           sampleEnv ["redis-1"]))
                 "redis-1" "n1"); reflexivity.
  - apply (proj1 (proj2 (proj2 (X20_failover_request_needs_one_resolved_id
                                  sampleEnv [])))).
    simpl. lia.
  - apply (proj2 (proj2 (proj2 (X20_failover_request_needs_one_resolved_id
                                  sampleEnv ["redis-9"])))
                 "redis-9" "unknown node"); reflexivity.
Defined.

(** X21. Whatever its arguments and whatever the leader answers, the
    command shows exactly one line, an error or the response, as the
    last thing it does, and sends at most one request before it. *)
Theorem X21_failover_shows_exactly_one_line e args :
  length (filter (fun o => negb (isPost o)) (failoverAction e args)) = 1
  /\ length (filter isPost (failoverAction e args)) <= 1
  /\ exists before last,
      failoverAction e args = before ++ [last]
      /\ isPost last = false
      /\ forall o, In o before -> isPost o = true.
Proof.
  unfold failoverAction.
  destruct (negb (length args =? 1)).
  - simpl. split; [reflexivity|]. split; [lia|].
    exists [], (Println (ErrInvalidParameter e)).
    split; [reflexivity|]. split; [reflexivity|intros o []].
  - destruct (GetId e (nth 0 args "")) as [id|err].
    + destruct (HttpPostExtra e _ _ _ _ _ _) as [resp|err]; simpl.
      * split; [reflexivity|]. split; [lia|].
        eexists [_], (Show resp).
        split; [reflexivity|]. split; [reflexivity|].
        intros o [<-|[]]. reflexivity.
      * split; [reflexivity|]. split; [lia|].
        eexists [_], (Println err).
        split; [reflexivity|]. split; [reflexivity|].
        intros o [<-|[]]. reflexivity.
    + simpl. split; [reflexivity|]. split; [lia|].
      exists [], (Println err).
      split; [reflexivity|]. split; [reflexivity|intros o []].
Qed.

End command_facts.
